(** * gtm_detect: the GTM scanner of [app.py]

    A shallow embedding of [find_gtm], [extract_contact_info], [check_gtm]
    and the scanning loop of [main], with the properties of the scan
    pipeline proved over it.

    Conventions.
    - A Python [str] is a [string]; every [ascii] stands for one code point
      below 256, so [lower] and the [\s] class are the Latin-1 part of
      Python's Unicode tables.
    - The libraries the script calls ([requests], [BeautifulSoup], the
      [re.findall] engine, the thread pool's scheduler) are the environment:
      they are Section variables, and every theorem holds for each of their
      behaviours.  [re.search] and [urlparse] are given executable models,
      since the properties below depend on what they compute.
    - Code that can raise lives in the monad [M]: an exception monad over the
      log of the HTTP requests issued so far. *)

From Stdlib Require Import List String Ascii ZArith Bool Lia Permutation.
From Stdlib Require Import DecimalString.
Import ListNotations.

Local Open Scope string_scope.
Local Open Scope bool_scope.

(** ** Python strings *)

Module PyStr.

(** [s.startswith(p)] *)
Fixpoint startswith (s p : string) {struct p} : bool :=
  match p, s with
  | EmptyString, _ => true
  | String _ _, EmptyString => false
  | String a p', String b s' => Ascii.eqb a b && startswith s' p'
  end.

(** [s.startswith((p1, p2, ...))] *)
Definition startswith_any (s : string) (ps : list string) : bool :=
  existsb (startswith s) ps.

(** [sub in s] *)
Fixpoint contains (sub s : string) : bool :=
  startswith s sub ||
  match s with
  | EmptyString => false
  | String _ s' => contains sub s'
  end.

Definition in_range (lo hi : N) (c : ascii) : bool :=
  (lo <=? N_of_ascii c)%N && (N_of_ascii c <=? hi)%N.

(** [c.lower()] on the code points below 256: [A-Z], and the upper-case
    letters of Latin-1 ([0xC0]-[0xDE] without the sign [0xD7]). *)
Definition lower_char (c : ascii) : ascii :=
  if in_range 65 90 c
     || (in_range 192 222 c && negb (N_of_ascii c =? 215)%N)
  then ascii_of_N (N_of_ascii c + 32)
  else c.

(** [s.lower()] *)
Fixpoint lower (s : string) : string :=
  match s with
  | EmptyString => EmptyString
  | String c s' => String (lower_char c) (lower s')
  end.

(** [str(n)] for an [int] *)
Definition str_of_Z (n : Z) : string := NilZero.string_of_int (Z.to_int n).

End PyStr.

Import PyStr.

(** ** Regular expressions: the fragment of [re] that [find_gtm] uses *)

Module Re.

Inductive regex : Type :=
| Void                           (* matches nothing; arises in derivatives *)
| Empty                          (* the empty pattern *)
| Class (p : ascii -> bool)      (* one character: a literal, [..] or \s *)
| Seq (r1 r2 : regex)            (* r1r2 *)
| Or (r1 r2 : regex)             (* r1|r2 *)
| Star (r : regex).              (* r* *)

Definition Chr (c : ascii) : regex := Class (Ascii.eqb c).

(** A run of literal (or escaped) characters. *)
Fixpoint Lit (s : string) : regex :=
  match s with
  | EmptyString => Empty
  | String c s' => Seq (Chr c) (Lit s')
  end.

(** [r+] *)
Definition Plus (r : regex) : regex := Seq r (Star r).

(** The words of a pattern. *)
Inductive Matches : regex -> string -> Prop :=
| MEmpty : Matches Empty ""
| MClass p c : p c = true -> Matches (Class p) (String c "")
| MSeq r1 r2 s1 s2 :
    Matches r1 s1 -> Matches r2 s2 -> Matches (Seq r1 r2) (s1 ++ s2)
| MOrL r1 r2 s : Matches r1 s -> Matches (Or r1 r2) s
| MOrR r1 r2 s : Matches r2 s -> Matches (Or r1 r2) s
| MStarNil r : Matches (Star r) ""
| MStarApp r s1 s2 :
    Matches r s1 -> Matches (Star r) s2 -> Matches (Star r) (s1 ++ s2).

(** Does the pattern match the empty word? *)
Fixpoint nullable (r : regex) : bool :=
  match r with
  | Void => false
  | Empty => true
  | Class _ => false
  | Seq r1 r2 => nullable r1 && nullable r2
  | Or r1 r2 => nullable r1 || nullable r2
  | Star _ => true
  end.

(** What is left of the pattern once it has read [c]. *)
Fixpoint deriv (c : ascii) (r : regex) : regex :=
  match r with
  | Void => Void
  | Empty => Void
  | Class p => if p c then Empty else Void
  | Seq r1 r2 =>
      if nullable r1 then Or (Seq (deriv c r1) r2) (deriv c r2)
      else Seq (deriv c r1) r2
  | Or r1 r2 => Or (deriv c r1) (deriv c r2)
  | Star r1 => Seq (deriv c r1) (Star r1)
  end.

(** [re.match(r, s) is not None]: the pattern matches at the start of [s]. *)
Fixpoint re_match (r : regex) (s : string) : bool :=
  nullable r ||
  match s with
  | EmptyString => false
  | String c s' => re_match (deriv c r) s'
  end.

(** [re.search(r, s) is not None]: the pattern matches at some position. *)
Fixpoint re_search (r : regex) (s : string) : bool :=
  re_match r s ||
  match s with
  | EmptyString => false
  | String _ s' => re_search r s'
  end.

(** The pattern matches a piece of [s]. *)
Definition occurs_in (r : regex) (s : string) : Prop :=
  exists a m b, s = a ++ m ++ b /\ Matches r m.

End Re.

Import Re.

(** ** Exceptions *)

(** The classes of exception the handlers of [check_gtm] tell apart, and the
    ones the models below raise themselves.  Every class is a subclass of
    [Exception]. *)
Inductive exn_class : Type :=
| SSLError          (* requests.exceptions.SSLError *)
| HTTPError         (* requests.exceptions.HTTPError, from raise_for_status *)
| ValueError        (* from urlparse *)
| OtherException.   (* timeouts, DNS and connection failures, anything else *)

(** An exception object: its class and [str(e)]. *)
Record exn : Type := mk_exn { exn_cls : exn_class; exn_str : string }.

Definition is_SSLError (e : exn) : bool :=
  match exn_cls e with SSLError => true | _ => false end.

Inductive result (A : Type) : Type :=
| Ok (a : A)
| Raise (e : exn).
Arguments Ok {A} a.
Arguments Raise {A} e.

Definition rbind {A B : Type} (m : result A) (k : A -> result B) : result B :=
  match m with
  | Ok a => k a
  | Raise e => Raise e
  end.

Declare Scope result_scope.
Delimit Scope result_scope with result.
Notation "x <- m ;; k" := (rbind m (fun x => k))
  (at level 61, m at next level, right associativity) : result_scope.

(** ** urlparse *)

Module Url.

Definition is_ascii_alpha (c : ascii) : bool :=
  in_range 65 90 c || in_range 97 122 c.

(** [urllib.parse.scheme_chars]: letters, digits and [+-.] *)
Definition scheme_char (c : ascii) : bool :=
  is_ascii_alpha c || in_range 48 57 c
  || Ascii.eqb c "+" || Ascii.eqb c "-" || Ascii.eqb c ".".

Fixpoint all_chars (p : ascii -> bool) (s : string) : bool :=
  match s with
  | EmptyString => true
  | String c s' => p c && all_chars p s'
  end.

(** [s.partition(':')] when [s] has a colon: the text before the first
    colon and the text after it. *)
Fixpoint split_colon (s : string) : option (string * string) :=
  match s with
  | EmptyString => None
  | String c s' =>
      if Ascii.eqb c ":" then Some (EmptyString, s')
      else match split_colon s' with
           | Some (a, b) => Some (String c a, b)
           | None => None
           end
  end.

(** The scheme step of [urlsplit]: [i = url.find(':')]; when [i > 0], the
    first character is an ASCII letter and [url[:i]] is made of
    [scheme_chars], the scheme is [url[:i].lower()] and the rest is
    [url[i+1:]]; otherwise there is no scheme. *)
Definition split_scheme (url : string) : string * string :=
  match split_colon url with
  | Some (String c0 pre, rest) =>
      if is_ascii_alpha c0 && all_chars scheme_char (String c0 pre)
      then (lower (String c0 pre), rest)
      else (EmptyString, url)
  | _ => (EmptyString, url)
  end.

(** [urlparse(url).scheme] *)
Definition scheme (url : string) : string := fst (split_scheme url).

(** [_splitnetloc]: the text up to the first of [/], [?] and [#]. *)
Fixpoint splitnetloc (s : string) : string :=
  match s with
  | EmptyString => EmptyString
  | String c s' =>
      if Ascii.eqb c "/" || Ascii.eqb c "?" || Ascii.eqb c "#"
      then EmptyString
      else String c (splitnetloc s')
  end.

(** [urlparse(url).netloc]: after the scheme, when the rest starts with
    [//], the authority up to the next delimiter; a square bracket without
    its partner raises [ValueError].  The stripping of control characters
    and the checks of a well-bracketed host, which differ between Python
    versions, are left out. *)
Definition netloc (url : string) : result string :=
  match snd (split_scheme url) with
  | String "/" (String "/" rest) =>
      let netloc := splitnetloc rest in
      if (contains "[" netloc && negb (contains "]" netloc))
         || (contains "]" netloc && negb (contains "[" netloc))
      then Raise (mk_exn ValueError "Invalid IPv6 URL")
      else Ok netloc
  | _ => Ok EmptyString
  end.

End Url.

(** ** find_gtm *)

(** [\s] on code points below 256 *)
Definition is_space (c : ascii) : bool :=
  in_range 9 13 c || in_range 28 32 c
  || (N_of_ascii c =? 133)%N || (N_of_ascii c =? 160)%N.

(** [[A-Z0-9]] *)
Definition is_upper_or_digit (c : ascii) : bool :=
  in_range 65 90 c || in_range 48 57 c.

(** [googletagmanager\.com/gtm\.js] *)
Definition gtm_script_pattern : regex := Lit "googletagmanager.com/gtm.js".

(** [GTM-[A-Z0-9]+] *)
Definition gtm_container_pattern : regex :=
  Seq (Lit "GTM-") (Plus (Class is_upper_or_digit)).

(** [https://www\.googletagmanager\.com/gtm\.js\?id=] *)
Definition gtm_init_pattern : regex :=
  Lit "https://www.googletagmanager.com/gtm.js?id=".

(** [dataLayer\s*=\s*\[\s*\]] *)
Definition datalayer_pattern : regex :=
  Seq (Lit "dataLayer")
    (Seq (Star (Class is_space))
      (Seq (Chr "=")
        (Seq (Star (Class is_space))
          (Seq (Chr "[")
            (Seq (Star (Class is_space)) (Chr "]")))))).

(** [www\.googletagmanager\.com/ns\.html\?id=GTM-] *)
Definition gtm_noscript_pattern : regex :=
  Lit "www.googletagmanager.com/ns.html?id=GTM-".

Definition gtm_patterns : list regex :=
  [ gtm_script_pattern;
    gtm_container_pattern;
    gtm_init_pattern;
    datalayer_pattern;
    gtm_noscript_pattern ].

(** The loop returns [True] at the first pattern that [re.search] finds and
    [False] when it runs out of patterns. *)
Definition find_gtm (html_content : string) : bool :=
  existsb (fun pattern => re_search pattern html_content) gtm_patterns.

(** ** The environment of a scan *)

(** The keyword arguments of one [requests.get] call. *)
Record Request : Type := mk_Request {
  req_url : string;
  req_headers : list (string * string);
  req_timeout : Z;
  req_verify : bool
}.

(** What the script reads of a [requests.Response]. *)
Record Response : Type := mk_Response {
  status_code : Z;
  reason : string;
  response_url : string;
  text : string
}.

(** What [extract_contact_info] reads of a parsed document:
    [soup.get_text()], and [link.get('href')] for every [link] of
    [soup.find_all('a', href=True)], in document order. *)
Record Soup : Type := mk_Soup {
  get_text : string;
  find_all_a_href : list string
}.

(** The library calls whose results the script does not control.  A call
    that can fail returns a [result]. *)
Class Libraries : Type := {
  (** [requests.get(url, headers=.., timeout=.., verify=..)] *)
  requests_get : Request -> result Response;
  (** [BeautifulSoup(html_content, 'html.parser')] *)
  BeautifulSoup : string -> result Soup;
  (** [re.findall(pattern, text)], the pattern given as it is written *)
  re_findall : string -> string -> list string;
  (** [list(set(l))]: the elements of [l] once each, in the order the hash
      table happens to yield them *)
  list_set : list string -> list string
}.

(** What Python guarantees of [list(set(l))]. *)
Class SetLaws (L : Libraries) : Prop := {
  list_set_In : forall l x, In x (list_set l) <-> In x l;
  list_set_NoDup : forall l, NoDup (list_set l)
}.

(** [Response.raise_for_status], as [requests] defines it: an [HTTPError]
    for a status from 400 to 599, nothing otherwise. *)
Definition raise_for_status (response : Response) : result unit :=
  let code := status_code response in
  if (400 <=? code)%Z && (code <? 500)%Z then
    Raise (mk_exn HTTPError
             (str_of_Z code ++ " Client Error: " ++ reason response
                ++ " for url: " ++ response_url response))
  else if (500 <=? code)%Z && (code <? 600)%Z then
    Raise (mk_exn HTTPError
             (str_of_Z code ++ " Server Error: " ++ reason response
                ++ " for url: " ++ response_url response))
  else Ok tt.

(** ** The monad of [check_gtm]: exceptions over the log of requests *)

Definition M (A : Type) : Type := list Request -> result A * list Request.

Definition ret {A : Type} (a : A) : M A := fun log => (Ok a, log).

Definition bind {A B : Type} (m : M A) (k : A -> M B) : M B :=
  fun log =>
    match m log with
    | (Ok a, log') => k a log'
    | (Raise e, log') => (Raise e, log')
    end.

(** A computation that only can raise. *)
Definition lift {A : Type} (r : result A) : M A := fun log => (r, log).

(** [try: body  except Exception as e: handler(e)] *)
Definition try_except {A : Type} (body : M A) (handler : exn -> M A) : M A :=
  fun log =>
    match body log with
    | (Ok a, log') => (Ok a, log')
    | (Raise e, log') => handler e log'
    end.

(** One outbound GET: the request is logged, the network answers. *)
Definition http_get `{Libraries} (req : Request) : M Response :=
  fun log => (requests_get req, (log ++ [req])%list).

Declare Scope scan_scope.
Delimit Scope scan_scope with scan.
Notation "x <- m ;; k" := (bind m (fun x => k))
  (at level 61, m at next level, right associativity) : scan_scope.

(** ** extract_contact_info *)

Record ContactInfo : Type := mk_ContactInfo {
  info_emails : list string;
  info_phones : list string;
  info_contact_links : list string
}.

Definition email_pattern : string := "[\w\.-]+@[\w\.-]+\.\w+".

Definition phone_pattern : string :=
  "(?:\+\d{1,3}[-.\s]?)?\(?\d{3}\)?[-.\s]?\d{3}[-.\s]?\d{4}".

(** ['contact' in href.lower() or 'about' in href.lower()] *)
Definition is_contact_href (href : string) : bool :=
  contains "contact" (lower href) || contains "about" (lower href).

(** The body of the loop over the anchors, for an [href] that passed the
    test: the string that is appended to [contact_links]. *)
Definition contact_link (url href : string) : result string :=
  if startswith href "/" then
    (netloc <- Url.netloc url ;;
     Ok ("https://" ++ netloc ++ href))%result
  else Ok href.

(** The loop over the anchors; [contact_links] is the list built so far. *)
Fixpoint collect_contact_links (url : string) (hrefs contact_links : list string)
  : result (list string) :=
  match hrefs with
  | [] => Ok contact_links
  | href :: rest =>
      if is_contact_href href then
        (link <- contact_link url href ;;
         collect_contact_links url rest (contact_links ++ [link])%list)%result
      else collect_contact_links url rest contact_links
  end.

Definition extract_contact_info `{Libraries} (soup : Soup) (url : string)
  : result ContactInfo :=
  let text := get_text soup in
  let emails := list_set (re_findall email_pattern text) in
  let phones := list_set (re_findall phone_pattern text) in
  (contact_links <- collect_contact_links url (find_all_a_href soup) [] ;;
   Ok {| info_emails := emails;
         info_phones := phones;
         info_contact_links := list_set contact_links |})%result.

(** ** check_gtm *)

(** The dictionary [check_gtm] returns. *)
Record ScanResult : Type := mk_ScanResult {
  url : string;
  gtm_found : bool;
  emails : list string;
  phones : list string;
  contact_links : list string;
  status : string;
  http_status : option Z
}.

Definition headers : list (string * string) :=
  [ ("User-Agent",
     "Mozilla/5.0 (Windows NT 10.0; Win64; x64) AppleWebKit/537.36 (KHTML, like Gecko) Chrome/91.0.4472.124 Safari/537.36");
    ("Accept",
     "text/html,application/xhtml+xml,application/xml;q=0.9,image/webp,*/*;q=0.8");
    ("Accept-Language", "en-US,en;q=0.5");
    ("Connection", "keep-alive") ].

(** [{'emails': [], 'phones': [], 'contact_links': []}] *)
Definition no_contact_info : ContactInfo :=
  {| info_emails := []; info_phones := []; info_contact_links := [] |}.

(** [if not url.startswith(('http://', 'https://')): url = 'https://' + url] *)
Definition add_scheme (url : string) : string :=
  if negb (startswith_any url ["http://"; "https://"])
  then "https://" ++ url
  else url.

(** The outer [try] block after the scheme step; [url] is the URL with its
    scheme. *)
Definition check_gtm_try `{Libraries} (url : string) : M ScanResult :=
  (response <- http_get {| req_url := url; req_headers := headers;
                           req_timeout := 15; req_verify := true |} ;;
   _ <- lift (raise_for_status response) ;;
   let html_content := text response in
   soup <- lift (BeautifulSoup html_content) ;;
   let gtm_present := find_gtm html_content in
   contact_info <- lift (if gtm_present then extract_contact_info soup url
                         else Ok no_contact_info) ;;
   ret {| url := url;
          gtm_found := gtm_present;
          emails := info_emails contact_info;
          phones := info_phones contact_info;
          contact_links := info_contact_links contact_info;
          status := if gtm_present then "Success" else "No GTM found";
          http_status := Some (status_code response) |})%scan.

(** The [try] block of the [SSLError] handler: the same request with
    [verify=False], and no [raise_for_status]. *)
Definition check_gtm_retry `{Libraries} (url : string) : M ScanResult :=
  (response <- http_get {| req_url := url; req_headers := headers;
                           req_timeout := 15; req_verify := false |} ;;
   let html_content := text response in
   soup <- lift (BeautifulSoup html_content) ;;
   let gtm_present := find_gtm html_content in
   contact_info <- lift (if gtm_present then extract_contact_info soup url
                         else Ok no_contact_info) ;;
   ret {| url := url;
          gtm_found := gtm_present;
          emails := info_emails contact_info;
          phones := info_phones contact_info;
          contact_links := info_contact_links contact_info;
          status := "Success (SSL verification disabled)";
          http_status := Some (status_code response) |})%scan.

(** The dictionary both [except Exception] handlers return. *)
Definition error_result (url status : string) : ScanResult :=
  {| url := url;
     gtm_found := false;
     emails := [];
     phones := [];
     contact_links := [];
     status := status;
     http_status := None |}.

(** [check_gtm]: [except SSLError] comes first and retries, [except
    Exception] takes every other exception; the retry has an [except
    Exception] of its own.  The scheme step stands inside the [try] in the
    script; on a [str] it cannot raise, and the handlers see its result. *)
Definition check_gtm `{Libraries} (url : string) : M ScanResult :=
  let url := add_scheme url in
  try_except (check_gtm_try url)
    (fun e =>
       if is_SSLError e then
         try_except (check_gtm_retry url)
           (fun e => ret (error_result url ("SSL Error: " ++ exn_str e)))
       else ret (error_result url ("Error: " ++ exn_str e))).

(** ** The scanning loop of main *)

(** The thread pool: [task_libraries i] is what the [i]-th submitted task
    meets on the network, and [next_completed ids] tells, of the futures
    still running (by their ids), the position of the one that completes
    next.  [max_workers] only bounds what such a schedule can be. *)
Class Pool : Type := {
  task_libraries : nat -> Libraries;
  next_completed : list nat -> nat
}.

(** A submitted task, run to its end. *)
Record Future : Type := mk_Future {
  future_id : nat;
  future_url : string;
  future_result : result ScanResult;
  future_log : list Request
}.

(** [executor.submit(check_gtm, url)] *)
Definition submit `{Pool} (i : nat) (url : string) : Future :=
  let run := check_gtm (H := task_libraries i) url [] in
  {| future_id := i; future_url := url;
     future_result := fst run; future_log := snd run |}.

(** The dictionary comprehension [future_to_url]: one future per element of
    [urls_to_scan]; the keys are the future objects, so equal URLs do not
    collide. *)
Fixpoint submit_all `{Pool} (i : nat) (urls_to_scan : list string) : list Future :=
  match urls_to_scan with
  | [] => []
  | url :: rest => submit i url :: submit_all (S i) rest
  end.

Definition remove_at {A : Type} (i : nat) (l : list A) : list A :=
  (firstn i l ++ skipn (S i) l)%list.

(** [concurrent.futures.as_completed]: each pending future is yielded once,
    in the order the pool completes them; [n] bounds the number of yields. *)
Fixpoint as_completed `{Pool} (n : nat) (pending : list Future) : list Future :=
  match n, pending with
  | S n', f0 :: _ =>
      let i := Nat.modulo (next_completed (map future_id pending)) (List.length pending) in
      nth i pending f0 :: as_completed n' (remove_at i pending)
  | _, _ => []
  end.

(** The [for future in as_completed(..)] loop: [future.result()] returns
    the task's value or raises what the task raised.  The progress bar and
    [time.sleep(1)] leave [results] alone and are not modelled. *)
Fixpoint scan_loop (completions : list Future) (results : list ScanResult)
    (completed : nat) : result (list ScanResult * nat) :=
  match completions with
  | [] => Ok (results, completed)
  | future :: rest =>
      let completed := S completed in
      (result <- future_result future ;;
       scan_loop rest (results ++ [result])%list completed)%result
  end.

(** The block under [with ThreadPoolExecutor(..)]: the futures and the
    final [results]. *)
Definition scan_all `{Pool} (max_workers : Z) (urls_to_scan : list string)
  : list Future * result (list ScanResult) :=
  let future_to_url := submit_all 0 urls_to_scan in
  (future_to_url,
   (r <- scan_loop (as_completed (List.length future_to_url) future_to_url) [] 0 ;;
    Ok (fst r))%result).

(** [main] from the two sliders on: [timeout] is read from its slider, and
    the scan starts when the button is pressed and [urls_to_scan] is not
    empty. *)
Definition main `{Pool} (max_workers timeout : Z) (button : bool)
    (urls_to_scan : list string)
  : option (list Future * result (list ScanResult)) :=
  if button && negb (Nat.eqb (List.length urls_to_scan) 0)
  then Some (scan_all max_workers urls_to_scan)
  else None.

(** ** The input form, the progress display and the metrics of main *)

Definition newline : ascii := "010"%char.

(** [s.lstrip()]: the white space of [str.isspace] is that of [\s]. *)
Fixpoint lstrip (s : string) : string :=
  match s with
  | EmptyString => EmptyString
  | String c s' => if is_space c then lstrip s' else s
  end.

(** [s.rstrip()] *)
Fixpoint rstrip (s : string) : string :=
  match s with
  | EmptyString => EmptyString
  | String c s' =>
      match rstrip s' with
      | EmptyString => if is_space c then EmptyString else String c EmptyString
      | String _ _ as r => String c r
      end
  end.

(** [s.strip()] *)
Definition strip (s : string) : string := rstrip (lstrip s).

(** [s.split('\n')]: the pieces between the newlines, of which there is
    always at least one. *)
Fixpoint split_newline (s : string) : list string :=
  match s with
  | EmptyString => [EmptyString]
  | String c s' =>
      if Ascii.eqb c newline then EmptyString :: split_newline s'
      else match split_newline s' with
           | line :: lines => String c line :: lines
           | [] => [String c EmptyString]
           end
  end.

(** The branch "Enter URLs manually": [urls_to_scan] stays [[]] on an
    empty text area, and is
    [[url.strip() for url in urls_text.split('\n') if url.strip()]]
    otherwise. *)
Definition manual_urls (urls_text : string) : list string :=
  if String.eqb urls_text "" then []
  else map strip
         (filter (fun url => negb (String.eqb (strip url) ""))
            (split_newline urls_text)).

(** What the loop over the completions shows: at every turn [completed] is
    increased and handed, with [total_urls], to the progress bar and the
    status text, before [future.result()] is asked for. *)
Fixpoint scan_loop_progress (total_urls : nat) (completions : list Future)
    (completed : nat) : list (nat * nat) :=
  match completions with
  | [] => []
  | future :: rest =>
      let completed := S completed in
      (completed, total_urls) ::
      match future_result future with
      | Ok _ => scan_loop_progress total_urls rest completed
      | Raise _ => []
      end
  end.

(** The progress shown during [scan_all]. *)
Definition scan_all_progress `{Pool} (urls_to_scan : list string)
  : list (nat * nat) :=
  let total_urls := List.length urls_to_scan in
  let future_to_url := submit_all 0 urls_to_scan in
  scan_loop_progress total_urls
    (as_completed (List.length future_to_url) future_to_url) 0.

(** [df_results[df_results['gtm_found']]] *)
Definition gtm_found_rows (results : list ScanResult) : list ScanResult :=
  filter gtm_found results.

(** The quotient under the metric "Success Rate",
    [len(gtm_found) / len(results)], as its two operands; the division
    raises on an empty [results].  The factor 100 and the formatting are
    left out. *)
Definition success_rate (results : list ScanResult) : result (nat * nat) :=
  if Nat.eqb (List.length results) 0
  then Raise (mk_exn OtherException "division by zero")
  else Ok (List.length (gtm_found_rows results), List.length results).


(** The characters of a line. *)
Definition line_char (c : ascii) : bool := negb (Ascii.eqb c newline).

(** A line of the text area that [manual_urls] returns as it is. *)
Definition clean_line (s : string) : Prop :=
  s <> "" /\ strip s = s /\ Url.all_chars line_char s = true.

(** ** Auxiliary definitions for the statements *)

(** The signatures the detector is described by: the loader script URL, the
    container id, the [dataLayer] initialisation and the [noscript] iframe
    URL.  The fifth pattern of [gtm_patterns], the loader URL with its query
    string, contains the first. *)
Definition gtm_signatures : list regex :=
  [ gtm_script_pattern;
    gtm_container_pattern;
    datalayer_pattern;
    gtm_noscript_pattern ].

(** The request [check_gtm] sends for [url], verified or not. *)
Definition get_request (url : string) (verify : bool) : Request :=
  {| req_url := url; req_headers := headers;
     req_timeout := 15; req_verify := verify |}.

(** The fields every failure record shares. *)
Definition is_failure (r : ScanResult) (description : string) : Prop :=
  gtm_found r = false /\ emails r = [] /\ phones r = []
  /\ contact_links r = [] /\ http_status r = None
  /\ status r = description.

(** What the loop over the anchors appends for an [href] that passed the
    test, once the host of the source URL is known. *)
Definition rewritten (netloc href : string) : string :=
  if startswith href "/" then "https://" ++ netloc ++ href else href.

(** A future holds the record of its URL. *)
Definition holds (f : Future) (r : ScanResult) : Prop :=
  future_result f = Ok r /\ url r = add_scheme (future_url f).

(** ** Concrete environments, for examples *)

Module Demo.

(** One possible [list(set(l))]. *)
Definition dedup (l : list string) : list string := nodup string_dec l.

(** A page with one address, one telephone number and three anchors. *)
Definition page : Soup :=
  {| get_text := "Email us: info@example.com or call (415) 555-0100";
     find_all_a_href := ["/about"; "contact.html"; "/pricing"] |}.

Definition findall (pattern text : string) : list string :=
  if String.eqb text "" then []
  else if String.eqb pattern email_pattern then ["info@example.com"]
  else if String.eqb pattern phone_pattern then ["(415) 555-0100"]
  else [].

Definition libraries (get : Request -> result Response) : Libraries :=
  {| requests_get := get;
     BeautifulSoup := fun _ => Ok page;
     re_findall := findall;
     list_set := dedup |}.

Definition response (code : Z) (why body : string) (req : Request) : Response :=
  {| status_code := code; reason := why;
     response_url := req_url req; text := body |}.

Definition gtm_body : string :=
  "<script src='https://www.googletagmanager.com/gtm.js?id=GTM-ABC123'></script>".

Definition plain_body : string := "<html><body>Hello</body></html>".

(** A site that serves a GTM page. *)
Definition site_ok (req : Request) : result Response :=
  Ok (response 200 "OK" gtm_body req).

(** A site that serves a page without GTM. *)
Definition site_plain (req : Request) : result Response :=
  Ok (response 200 "OK" plain_body req).

(** A site that answers 404. *)
Definition site_404 (req : Request) : result Response :=
  Ok (response 404 "Not Found" gtm_body req).

(** A site that does not answer in time. *)
Definition site_timeout (req : Request) : result Response :=
  Raise (mk_exn OtherException "Read timed out. (read timeout=15)").

(** A site whose certificate does not verify and which answers 404 to an
    unverified request. *)
Definition site_bad_cert_404 (req : Request) : result Response :=
  if req_verify req
  then Raise (mk_exn SSLError "certificate verify failed")
  else Ok (response 404 "Not Found" gtm_body req).

(** A site whose certificate does not verify and which drops the
    unverified connection. *)
Definition site_bad_cert_down (req : Request) : result Response :=
  if req_verify req
  then Raise (mk_exn SSLError "certificate verify failed")
  else Raise (mk_exn OtherException "Connection aborted.").

(** A pool in which every task meets [get] and the last future submitted
    completes first. *)
Definition pool (get : Request -> result Response) : Pool :=
  {| task_libraries := fun _ => libraries get;
     next_completed := fun ids => Nat.pred (List.length ids) |}.

End Demo.

(** ** Definitions for the further properties *)

(** The five kinds of record [check_gtm] returns. *)
Inductive outcome (r : ScanResult) : Prop :=
| FoundGtm (c : Z) :
    status r = "Success" -> gtm_found r = true -> http_status r = Some c ->
    (c < 400 \/ 600 <= c)%Z -> outcome r
| NoGtm (c : Z) :
    status r = "No GTM found" -> gtm_found r = false -> http_status r = Some c ->
    (c < 400 \/ 600 <= c)%Z ->
    emails r = [] -> phones r = [] -> contact_links r = [] -> outcome r
| Unverified (c : Z) :
    status r = "Success (SSL verification disabled)" -> http_status r = Some c ->
    (gtm_found r = false ->
     emails r = [] /\ phones r = [] /\ contact_links r = []) -> outcome r
| Failed (message : string) :
    is_failure r ("Error: " ++ message) -> outcome r
| FailedRetry (message : string) :
    is_failure r ("SSL Error: " ++ message) -> outcome r.

(** A site whose pages the parser rejects. *)
Definition unparsable_libraries : Libraries :=
  {| requests_get := Demo.site_ok;
     BeautifulSoup := fun _ => Raise (mk_exn OtherException "cannot parse");
     re_findall := Demo.findall;
     list_set := Demo.dedup |}.

(** * Properties *)

(** ** Strings *)

Module PyStrFacts.

Lemma append_assoc (a b c : string) : (a ++ b) ++ c = a ++ (b ++ c).
Proof. induction a as [|x a IH]; simpl; [reflexivity | now rewrite IH]. Qed.

Lemma append_nil_r (a : string) : a ++ "" = a.
Proof. induction a as [|x a IH]; simpl; [reflexivity | now rewrite IH]. Qed.

Lemma append_eq_nil (a b : string) : a ++ b = "" -> a = "" /\ b = "".
Proof. destruct a; simpl; [now split | discriminate]. Qed.

Lemma startswith_iff (s p : string) :
  startswith s p = true <-> exists t, s = p ++ t.
Proof.
  revert s; induction p as [|a p IH]; intros s; simpl.
  - split; [intros _; now exists s | reflexivity].
  - destruct s as [|b s].
    + split; [discriminate | intros [t H]; discriminate].
    + rewrite andb_true_iff, Ascii.eqb_eq, IH. split.
      * intros [-> [t ->]]. now exists t.
      * intros [t H]. injection H as -> ->. split; [reflexivity | now exists t].
Qed.

Lemma contains_iff (sub s : string) :
  contains sub s = true <-> exists a b, s = a ++ sub ++ b.
Proof.
  induction s as [|c s IH]; simpl; rewrite orb_true_iff, startswith_iff.
  - split.
    + intros [[t H] | H]; [| discriminate]. now exists "", t.
    + intros [a [b H]]. left. destruct a; [now exists b | discriminate].
  - rewrite IH. split.
    + intros [[t H] | [a [b H]]].
      * now exists "", t.
      * exists (String c a), b. simpl. now rewrite H.
    + intros [a [b H]]. destruct a as [|x a]; simpl in H.
      * left. now exists b.
      * right. injection H as _ H. now exists a, b.
Qed.

End PyStrFacts.

Import PyStrFacts.

(** ** The matcher computes the words of a pattern *)

Module ReFacts.

Lemma nullable_Matches (r : regex) : nullable r = true -> Matches r "".
Proof.
  induction r; simpl; intros E; try discriminate.
  - constructor.
  - apply andb_true_iff in E as [E1 E2].
    change "" with ("" ++ ""). constructor; auto.
  - apply orb_true_iff in E as [E | E]; [apply MOrL | apply MOrR]; auto.
  - constructor.
Qed.

Lemma Matches_nil_nullable (r : regex) (s : string) :
  Matches r s -> s = "" -> nullable r = true.
Proof.
  induction 1; simpl; intros E; try reflexivity; try discriminate.
  - apply append_eq_nil in E as [-> ->]. now rewrite IHMatches1, IHMatches2.
  - now rewrite IHMatches.
  - rewrite IHMatches by assumption. now rewrite orb_true_r.
Qed.

Lemma nullable_iff (r : regex) : nullable r = true <-> Matches r "".
Proof.
  split; [apply nullable_Matches | intros H; now apply Matches_nil_nullable with ""].
Qed.

(** A non-empty word of [r*] starts with a non-empty word of [r]. *)
Lemma Matches_Star_cons (r0 : regex) (w : string) :
  Matches r0 w ->
  forall r c s, r0 = Star r -> w = String c s ->
  exists s1 s2, s = s1 ++ s2 /\ Matches r (String c s1) /\ Matches (Star r) s2.
Proof.
  induction 1 as [| | | | | |r1 s1 s2 H1 IH1 H2 IH2];
    intros r' ch tl Er Ew; try discriminate.
  injection Er as ->.
  destruct s1 as [|x s1]; simpl in Ew.
  - now apply IH2.
  - injection Ew as -> <-. now exists s1, s2.
Qed.

Lemma deriv_iff (r : regex) :
  forall c s, Matches (deriv c r) s <-> Matches r (String c s).
Proof.
  induction r as [| | p | r1 IH1 r2 IH2 | r1 IH1 r2 IH2 | r IH]; intros c s; simpl.
  - split; intros H; inversion H.
  - split; intros H; inversion H.
  - destruct (p c) eqn:E; split; intros H; inversion H; subst.
    + now constructor.
    + constructor.
    + congruence.
  - assert (Hseq : Matches (Seq (deriv c r1) r2) s ->
                   Matches (Seq r1 r2) (String c s)).
    { intros H; inversion H; subst.
      change (String c (s1 ++ s2)) with (String c s1 ++ s2).
      constructor; [now apply IH1 | assumption]. }
    assert (Hinv : Matches (Seq r1 r2) (String c s) ->
                   Matches (Seq (deriv c r1) r2) s
                   \/ (nullable r1 = true /\ Matches (deriv c r2) s)).
    { intros H; inversion H as [| |? ? s1 s2 H1 H2 E1 E2| | | |]; subst.
      destruct s1 as [|x s1]; simpl in E2.
      - right. split; [now apply nullable_iff | apply IH2; now rewrite <- E2].
      - injection E2 as -> <-. left. constructor; [now apply IH1 | assumption]. }
    destruct (nullable r1) eqn:N; split.
    + intros H; inversion H; subst; [now apply Hseq |].
      change (String c s) with ("" ++ String c s).
      constructor; [now apply nullable_iff | now apply IH2].
    + intros H; destruct (Hinv H) as [H' | [_ H']]; [now apply MOrL | now apply MOrR].
    + assumption.
    + intros H; destruct (Hinv H) as [H' | [H' _]]; [assumption | discriminate].
  - split; intros H; inversion H; subst.
    + apply MOrL; now apply IH1.
    + apply MOrR; now apply IH2.
    + apply MOrL; now apply IH1.
    + apply MOrR; now apply IH2.
  - split; intros H.
    + inversion H; subst.
      change (String c (s1 ++ s2)) with (String c s1 ++ s2).
      constructor; [now apply IH | assumption].
    + destruct (Matches_Star_cons _ _ H r c s eq_refl eq_refl)
        as [s1 [s2 [-> [H1 H2]]]].
      constructor; [now apply IH | assumption].
Qed.

Lemma re_match_iff (s : string) :
  forall r, re_match r s = true <-> exists m t, s = m ++ t /\ Matches r m.
Proof.
  induction s as [|c s IH]; intros r; simpl; rewrite orb_true_iff.
  - split.
    + intros [N | N]; [| discriminate]. exists "", "". split; [reflexivity | now apply nullable_iff].
    + intros [m [t [E H]]]. left. symmetry in E.
      apply append_eq_nil in E as [-> _]. now apply nullable_iff.
  - rewrite IH. split.
    + intros [N | [m [t [-> H]]]].
      * exists "", (String c s). split; [reflexivity | now apply nullable_iff].
      * exists (String c m), t. split; [reflexivity | now apply deriv_iff].
    + intros [m [t [E H]]]. destruct m as [|x m]; simpl in E.
      * left. now apply nullable_iff.
      * injection E as <- ->. right. exists m, t. split; [reflexivity | now apply deriv_iff].
Qed.

Lemma re_search_iff (r : regex) (s : string) :
  re_search r s = true <-> occurs_in r s.
Proof.
  unfold occurs_in.
  induction s as [|c s IH]; cbn [re_search]; rewrite orb_true_iff, re_match_iff.
  - split.
    + intros [[m [t [E H]]] | F]; [| discriminate]. now exists "", m, t.
    + intros [a [m [b [E H]]]]. left. destruct a; [now exists m, b | discriminate].
  - rewrite IH. split.
    + intros [[m [t [E H]]] | [a [m [b [E H]]]]].
      * now exists "", m, t.
      * exists (String c a), m, b. simpl. now rewrite E.
    + intros [a [m [b [E H]]]]. destruct a as [|x a]; simpl in E.
      * left. now exists m, b.
      * injection E as _ E. right. now exists a, m, b.
Qed.

Lemma Matches_Chr (c : ascii) (m : string) :
  Matches (Chr c) m <-> m = String c "".
Proof.
  unfold Chr. split.
  - intros H; inversion H; subst. apply Ascii.eqb_eq in H1. now subst.
  - intros ->. constructor. apply Ascii.eqb_refl.
Qed.

Lemma Matches_Lit (l m : string) : Matches (Lit l) m <-> m = l.
Proof.
  revert m; induction l as [|c l IH]; intros m; simpl.
  - split; [intros H; now inversion H | intros ->; constructor].
  - split.
    + intros H; inversion H; subst.
      apply Matches_Chr in H2. apply IH in H4. now subst.
    + intros ->. change (String c l) with (String c "" ++ l).
      constructor; [now apply Matches_Chr | now apply IH].
Qed.

Lemma occurs_Lit (l s : string) :
  occurs_in (Lit l) s <-> contains l s = true.
Proof.
  rewrite contains_iff. unfold occurs_in. split.
  - intros [a [m [b [E H]]]]. apply Matches_Lit in H. subst. now exists a, b.
  - intros [a [b E]]. exists a, l, b. split; [assumption | now apply Matches_Lit].
Qed.

End ReFacts.

Import ReFacts.

(** ** find_gtm *)

Lemma find_gtm_patterns (content : string) :
  find_gtm content = true <->
  exists p, In p gtm_patterns /\ occurs_in p content.
Proof.
  unfold find_gtm. rewrite existsb_exists.
  split; intros [p [Hp H]]; exists p; (split; [assumption | now apply re_search_iff]).
Qed.

Lemma gtm_init_has_script (content : string) :
  occurs_in gtm_init_pattern content -> occurs_in gtm_script_pattern content.
Proof.
  unfold gtm_init_pattern, gtm_script_pattern.
  rewrite !occurs_Lit, !contains_iff. intros [a [b ->]].
  exists (a ++ "https://www."), ("?id=" ++ b).
  now rewrite append_assoc.
Qed.

Lemma signatures_are_patterns (p : regex) :
  In p gtm_signatures -> In p gtm_patterns.
Proof.
  unfold gtm_signatures, gtm_patterns. cbn [In]. tauto.
Qed.

Lemma find_gtm_empty : find_gtm "" = false.
Proof. reflexivity. Qed.

(** C4. [find_gtm] is a function of the content alone, and it returns
    [true] exactly when one of the four GTM signatures (loader script URL,
    [GTM-] container id, [dataLayer] initialisation, [noscript] iframe URL)
    matches somewhere in the content; on the empty content it returns
    [false]. *)
Theorem find_gtm_iff_signature :
  (forall content,
     find_gtm content = true <->
     exists p, In p gtm_signatures /\ occurs_in p content)
  /\ find_gtm "" = false.
Proof.
  split; [| exact find_gtm_empty].
  intros content. rewrite find_gtm_patterns. split.
  - intros [p [Hp H]]. unfold gtm_patterns in Hp. cbn [In] in Hp.
    destruct Hp as [<- | [<- | [<- | [<- | [<- | []]]]]].
    + exists gtm_script_pattern. split; [| assumption]. cbn [gtm_signatures In]. tauto.
    + exists gtm_container_pattern. split; [| assumption]. cbn [gtm_signatures In]. tauto.
    + exists gtm_script_pattern. split; [| now apply gtm_init_has_script].
      cbn [gtm_signatures In]. tauto.
    + exists datalayer_pattern. split; [| assumption]. cbn [gtm_signatures In]. tauto.
    + exists gtm_noscript_pattern. split; [| assumption]. cbn [gtm_signatures In]. tauto.
  - intros [p [Hp H]]. exists p. split; [now apply signatures_are_patterns | assumption].
Qed.

(** The signatures, read as conditions on the text. *)
Lemma find_gtm_script (content : string) :
  contains "googletagmanager.com/gtm.js" content = true -> find_gtm content = true.
Proof.
  intros H. apply find_gtm_patterns. exists gtm_script_pattern.
  split; [cbn [gtm_patterns In]; tauto | now apply occurs_Lit].
Qed.

Lemma find_gtm_noscript (content : string) :
  contains "www.googletagmanager.com/ns.html?id=GTM-" content = true ->
  find_gtm content = true.
Proof.
  intros H. apply find_gtm_patterns. exists gtm_noscript_pattern.
  split; [cbn [gtm_patterns In]; tauto | now apply occurs_Lit].
Qed.

Lemma find_gtm_container (content : string) (c : ascii) :
  is_upper_or_digit c = true ->
  contains ("GTM-" ++ String c "") content = true -> find_gtm content = true.
Proof.
  intros Hc H. apply find_gtm_patterns. exists gtm_container_pattern.
  split; [cbn [gtm_patterns In]; tauto |].
  apply contains_iff in H as [a [b ->]].
  exists a, ("GTM-" ++ String c ""), b. split; [reflexivity |].
  unfold gtm_container_pattern, Plus.
  constructor; [now apply Matches_Lit |].
  change (String c "") with (String c "" ++ "").
  constructor; [now constructor | constructor].
Qed.

Example find_gtm_script_tag :
  find_gtm "<script src='https://www.googletagmanager.com/gtm.js?id=GTM-ABC123'></script>" = true.
Proof. reflexivity. Qed.

Example find_gtm_datalayer : find_gtm "window.dataLayer = [ ];" = true.
Proof. reflexivity. Qed.

Example find_gtm_plain_page : find_gtm "<html><body>GTM- dataLayer</body></html>" = false.
Proof. reflexivity. Qed.

(** ** check_gtm *)

Section CheckGtm.

Context {L : Libraries}.

(** The two handlers, spelled out on a run. *)
Lemma check_gtm_run (u : string) (log : list Request) :
  check_gtm u log =
  match check_gtm_try (add_scheme u) log with
  | (Ok r, log1) => (Ok r, log1)
  | (Raise e, log1) =>
      if is_SSLError e then
        match check_gtm_retry (add_scheme u) log1 with
        | (Ok r, log2) => (Ok r, log2)
        | (Raise e', log2) =>
            (Ok (error_result (add_scheme u) ("SSL Error: " ++ exn_str e')), log2)
        end
      else (Ok (error_result (add_scheme u) ("Error: " ++ exn_str e)), log1)
  end.
Proof.
  unfold check_gtm, try_except.
  destruct (check_gtm_try (add_scheme u) log) as [[r | e] log1]; [reflexivity |].
  destruct (is_SSLError e); reflexivity.
Qed.

(** The outer [try] block sends one verified request, whatever happens
    after it. *)
Lemma check_gtm_try_log (u : string) (log : list Request) :
  snd (check_gtm_try u log) = (log ++ [get_request u true])%list.
Proof.
  unfold check_gtm_try, bind, http_get, lift, ret, get_request.
  destruct (requests_get _) as [response |]; [| reflexivity].
  destruct (raise_for_status response); [| reflexivity].
  destruct (BeautifulSoup _); [| reflexivity].
  destruct (if find_gtm (text response) then _ else _); reflexivity.
Qed.

Lemma check_gtm_retry_log (u : string) (log : list Request) :
  snd (check_gtm_retry u log) = (log ++ [get_request u false])%list.
Proof.
  unfold check_gtm_retry, bind, http_get, lift, ret, get_request.
  destruct (requests_get _) as [response |]; [| reflexivity].
  destruct (BeautifulSoup _); [| reflexivity].
  destruct (if find_gtm (text response) then _ else _); reflexivity.
Qed.

(** A record that the [try] blocks return carries the URL they were
    given. *)
Lemma check_gtm_try_url (u : string) (log log1 : list Request) (r : ScanResult) :
  check_gtm_try u log = (Ok r, log1) -> url r = u.
Proof.
  unfold check_gtm_try, bind, http_get, lift, ret.
  destruct (requests_get _) as [response |]; [| discriminate].
  destruct (raise_for_status response); [| discriminate].
  destruct (BeautifulSoup _); [| discriminate].
  destruct (if find_gtm (text response) then _ else _); [| discriminate].
  intros E; injection E as <- _. reflexivity.
Qed.

Lemma check_gtm_retry_url (u : string) (log log1 : list Request) (r : ScanResult) :
  check_gtm_retry u log = (Ok r, log1) -> url r = u.
Proof.
  unfold check_gtm_retry, bind, http_get, lift, ret.
  destruct (requests_get _) as [response |]; [| discriminate].
  destruct (BeautifulSoup _); [| discriminate].
  destruct (if find_gtm (text response) then _ else _); [| discriminate].
  intros E; injection E as <- _. reflexivity.
Qed.

(** [check_gtm] returns a record for the URL with its scheme, after one
    request or, when the first raised [SSLError], two. *)
Lemma check_gtm_returns (u : string) (log : list Request) :
  exists r sent,
    check_gtm u log = (Ok r, (log ++ sent)%list)
    /\ url r = add_scheme u
    /\ (sent = [get_request (add_scheme u) true]
        \/ sent = [get_request (add_scheme u) true;
                   get_request (add_scheme u) false]).
Proof.
  rewrite check_gtm_run.
  pose proof (check_gtm_try_log (add_scheme u) log) as Hlog.
  destruct (check_gtm_try (add_scheme u) log) as [[r | e] log1] eqn:Etry;
    simpl in Hlog; subst log1.
  - exists r, [get_request (add_scheme u) true].
    split; [reflexivity |]. split; [| now left].
    eapply check_gtm_try_url; eassumption.
  - destruct (is_SSLError e).
    + pose proof (check_gtm_retry_log (add_scheme u)
                    (log ++ [get_request (add_scheme u) true])) as Hlog2.
      destruct (check_gtm_retry (add_scheme u) _) as [[r | e'] log2] eqn:Eretry;
        simpl in Hlog2; subst log2; rewrite <- app_assoc; simpl.
      * exists r. eexists. split; [reflexivity |]. split; [| now right].
        eapply check_gtm_retry_url; eassumption.
      * eexists. eexists. split; [reflexivity |]. split; [reflexivity | now right].
    + eexists. exists [get_request (add_scheme u) true].
      split; [reflexivity |]. split; [reflexivity | now left].
Qed.

(** C1. [check_gtm] never raises: on every URL it returns one record.
    When the outer [try] block raises an exception other than [SSLError],
    and when it raises [SSLError] and the retry raises too, that record has
    [gtm_found] false, [emails], [phones] and [contact_links] empty,
    [http_status] [None], and a status made of ["Error: "] or
    ["SSL Error: "] and the description of the exception. *)
Theorem check_gtm_never_raises (u : string) (log : list Request) :
  exists r log',
    check_gtm u log = (Ok r, log')
    /\ (forall e log1,
          check_gtm_try (add_scheme u) log = (Raise e, log1) ->
          is_SSLError e = false ->
          is_failure r ("Error: " ++ exn_str e))
    /\ (forall e1 log1 e2 log2,
          check_gtm_try (add_scheme u) log = (Raise e1, log1) ->
          is_SSLError e1 = true ->
          check_gtm_retry (add_scheme u) log1 = (Raise e2, log2) ->
          is_failure r ("SSL Error: " ++ exn_str e2)).
Proof.
  rewrite check_gtm_run.
  destruct (check_gtm_try (add_scheme u) log) as [[r | e] log1] eqn:Etry.
  - exists r, log1. split; [reflexivity |]. split; intros; discriminate.
  - destruct (is_SSLError e) eqn:Essl.
    + destruct (check_gtm_retry (add_scheme u) log1) as [[r | e'] log2] eqn:Eretry.
      * exists r, log2. split; [reflexivity |]. split.
        -- intros e0 l0 E0 F. injection E0 as <- <-. congruence.
        -- intros e1 l1 e2 l2 E1 _ E2. injection E1 as <- <-.
           rewrite Eretry in E2. discriminate.
      * eexists. exists log2. split; [reflexivity |]. split.
        -- intros e0 l0 E0 F. injection E0 as <- <-. congruence.
        -- intros e1 l1 e2 l2 E1 _ E2. injection E1 as <- <-.
           rewrite Eretry in E2. injection E2 as <- <-.
           repeat split.
    + eexists. exists log1. split; [reflexivity |]. split.
      * intros e0 l0 E0 _. injection E0 as <- <-. repeat split.
      * intros e1 l1 e2 l2 E1 F. injection E1 as <- <-. congruence.
Qed.

(** C5. When the verified fetch succeeds and the content matches no GTM
    pattern, the extractor is not run, whatever it would have returned or
    raised on the parsed page: the record has [emails], [phones] and
    [contact_links] empty and the status ["No GTM found"]. *)
Theorem no_gtm_no_extraction (u : string) (log : list Request)
    (response : Response) (soup : Soup) :
  requests_get (get_request (add_scheme u) true) = Ok response ->
  raise_for_status response = Ok tt ->
  BeautifulSoup (text response) = Ok soup ->
  find_gtm (text response) = false ->
  check_gtm u log =
    (Ok {| url := add_scheme u;
           gtm_found := false;
           emails := [];
           phones := [];
           contact_links := [];
           status := "No GTM found";
           http_status := Some (status_code response) |},
     (log ++ [get_request (add_scheme u) true])%list).
Proof.
  intros Hget Hstatus Hsoup Hgtm.
  rewrite check_gtm_run.
  unfold check_gtm_try, bind, http_get, lift, ret.
  fold (get_request (add_scheme u) true).
  now rewrite Hget, Hstatus, Hsoup, Hgtm.
Qed.

(** On the retry the extractor is skipped in the same way, under the
    status of the retry. *)
Lemma retry_no_gtm_no_extraction (u : string) (log : list Request)
    (e : exn) (response : Response) (soup : Soup) :
  requests_get (get_request (add_scheme u) true) = Raise e ->
  is_SSLError e = true ->
  requests_get (get_request (add_scheme u) false) = Ok response ->
  BeautifulSoup (text response) = Ok soup ->
  find_gtm (text response) = false ->
  check_gtm u log =
    (Ok {| url := add_scheme u;
           gtm_found := false;
           emails := [];
           phones := [];
           contact_links := [];
           status := "Success (SSL verification disabled)";
           http_status := Some (status_code response) |},
     (log ++ [get_request (add_scheme u) true;
              get_request (add_scheme u) false])%list).
Proof.
  intros Hget Hssl Hget2 Hsoup Hgtm.
  rewrite check_gtm_run.
  unfold check_gtm_try, check_gtm_retry, bind, http_get, lift, ret.
  fold (get_request (add_scheme u) true).
  fold (get_request (add_scheme u) false).
  rewrite Hget, Hssl, Hget2, Hsoup, Hgtm, <- app_assoc. reflexivity.
Qed.

(** [raise_for_status] raises exactly on the codes from 400 to 599, with
    a message that starts with the code. *)
Lemma raise_for_status_error (response : Response) :
  (400 <= status_code response < 600)%Z ->
  exists kind,
    raise_for_status response =
      Raise (mk_exn HTTPError
               (str_of_Z (status_code response) ++ kind ++ reason response
                  ++ " for url: " ++ response_url response)).
Proof.
  intros [Hlo Hhi]. unfold raise_for_status.
  apply Z.leb_le in Hlo. rewrite Hlo. simpl.
  destruct (status_code response <? 500)%Z eqn:E.
  - now exists " Client Error: ".
  - apply Z.ltb_ge in E. apply Z.leb_le in E. apply Z.ltb_lt in Hhi.
    rewrite E, Hhi. simpl. now exists " Server Error: ".
Qed.

Lemma raise_for_status_ok (response : Response) :
  (status_code response < 400 \/ 600 <= status_code response)%Z ->
  raise_for_status response = Ok tt.
Proof.
  intros H. unfold raise_for_status.
  destruct (400 <=? status_code response)%Z eqn:E1;
    destruct (status_code response <? 500)%Z eqn:E2;
    destruct (500 <=? status_code response)%Z eqn:E3;
    destruct (status_code response <? 600)%Z eqn:E4;
    try reflexivity; simpl; lia.
Qed.

(** C8, as the code has it.  When the verified fetch returns a response
    with a status from 400 to 599, [check_gtm] returns the failure record:
    the status is ["Error: "] followed by the message of the [HTTPError],
    which starts with the status code, and [http_status] is [None]. *)
Theorem http_error_in_status_only (u : string) (log : list Request)
    (response : Response) :
  requests_get (get_request (add_scheme u) true) = Ok response ->
  (400 <= status_code response < 600)%Z ->
  exists r message,
    check_gtm u log = (Ok r, (log ++ [get_request (add_scheme u) true])%list)
    /\ is_failure r ("Error: " ++ str_of_Z (status_code response) ++ message)
    /\ http_status r = None.
Proof.
  intros Hget Hcode.
  destruct (raise_for_status_error response Hcode) as [kind Hraise].
  rewrite check_gtm_run.
  unfold check_gtm_try, bind, http_get, lift, ret.
  fold (get_request (add_scheme u) true).
  rewrite Hget, Hraise. simpl.
  eexists. eexists. split; [reflexivity |]. split; [| reflexivity].
  repeat split.
Qed.

Lemma http_prefix_is_scheme (u : string) :
  startswith_any u ["http://"; "https://"] = true -> Url.scheme u <> "".
Proof.
  unfold startswith_any. cbn [existsb]. rewrite !orb_true_iff.
  intros [H | [H | H]]; [| | discriminate];
    apply startswith_iff in H as [t ->]; vm_compute; discriminate.
Qed.

(** C9, as the code has it.  A URL without a scheme gets ["https://"] in
    front of it, and a URL that begins with ["http://"] or ["https://"] is
    left as it is; every request goes to the resulting URL, and the record
    carries it. *)
Theorem url_normalization (u : string) (log : list Request) :
  (Url.scheme u = "" -> add_scheme u = "https://" ++ u)
  /\ (startswith_any u ["http://"; "https://"] = true -> add_scheme u = u)
  /\ exists r sent,
       check_gtm u log = (Ok r, (log ++ sent)%list)
       /\ sent <> []
       /\ Forall (fun req => req_url req = add_scheme u) sent
       /\ url r = add_scheme u.
Proof.
  split; [| split].
  - intros Hscheme. unfold add_scheme.
    destruct (startswith_any u ["http://"; "https://"]) eqn:E; [| reflexivity].
    now apply http_prefix_is_scheme in E.
  - unfold add_scheme. now intros ->.
  - destruct (check_gtm_returns u log) as [r [sent [E [Hurl Hsent]]]].
    exists r, sent. split; [assumption |].
    destruct Hsent as [-> | ->]; (split; [discriminate |]);
      (split; [| assumption]); repeat constructor.
Qed.

(** Every other URL gets the prefix too. *)
Lemma add_scheme_other (u : string) :
  startswith_any u ["http://"; "https://"] = false ->
  add_scheme u = "https://" ++ u.
Proof. unfold add_scheme. now intros ->. Qed.

(** Every request of a scan has the timeout 15. *)
Lemma check_gtm_timeout (u : string) (log : list Request) :
  exists r sent,
    check_gtm u log = (Ok r, (log ++ sent)%list)
    /\ Forall (fun req => req_timeout req = 15%Z) sent.
Proof.
  destruct (check_gtm_returns u log) as [r [sent [E [_ Hsent]]]].
  exists r, sent. split; [assumption |].
  destruct Hsent as [-> | ->]; repeat constructor.
Qed.

End CheckGtm.

(** ** extract_contact_info *)

Section Extract.

Context {L : Libraries} {Laws : SetLaws L}.

Lemma collect_contact_links_ok (u netloc : string) (hrefs acc : list string) :
  Url.netloc u = Ok netloc ->
  collect_contact_links u hrefs acc =
    Ok (acc ++ map (rewritten netloc) (filter is_contact_href hrefs))%list.
Proof.
  intros Hnet. revert acc.
  induction hrefs as [|href rest IH]; intros acc; simpl.
  - now rewrite app_nil_r.
  - destruct (is_contact_href href); [| apply IH].
    cbn [map]. unfold contact_link. unfold rewritten at 1.
    destruct (startswith href "/"); [rewrite Hnet |]; cbn [rbind];
      rewrite IH, <- app_assoc; reflexivity.
Qed.

Lemma extract_contact_info_ok (soup : Soup) (u netloc : string) :
  Url.netloc u = Ok netloc ->
  extract_contact_info soup u =
    Ok {| info_emails := list_set (re_findall email_pattern (get_text soup));
          info_phones := list_set (re_findall phone_pattern (get_text soup));
          info_contact_links :=
            list_set (map (rewritten netloc)
                        (filter is_contact_href (find_all_a_href soup))) |}.
Proof.
  intros Hnet. unfold extract_contact_info.
  now rewrite (collect_contact_links_ok _ _ _ _ Hnet).
Qed.

(** C6, as the code has it.  An [href] that contains "contact" or "about"
    in any case and begins with [/] enters [contact_links] as ["https://"],
    the host of the source URL and the [href]: the scheme is [https]
    whatever the scheme of the source URL. *)
Theorem contact_link_rewritten (soup : Soup) (u netloc href : string) :
  Url.netloc u = Ok netloc ->
  In href (find_all_a_href soup) ->
  is_contact_href href = true ->
  startswith href "/" = true ->
  exists info,
    extract_contact_info soup u = Ok info
    /\ In ("https://" ++ netloc ++ href) (info_contact_links info).
Proof.
  intros Hnet Hin Hcontact Hslash.
  eexists. split; [apply (extract_contact_info_ok _ _ _ Hnet) |].
  cbn [info_contact_links]. apply list_set_In.
  assert (E : "https://" ++ netloc ++ href = rewritten netloc href)
    by (unfold rewritten; now rewrite Hslash).
  rewrite E. apply in_map, filter_In. now split.
Qed.

(** C10. An [href] that contains "contact" or "about" and does not begin
    with [/] enters [contact_links] as it stands in the page. *)
Theorem relative_href_kept (soup : Soup) (u netloc href : string) :
  Url.netloc u = Ok netloc ->
  In href (find_all_a_href soup) ->
  is_contact_href href = true ->
  startswith href "/" = false ->
  exists info,
    extract_contact_info soup u = Ok info
    /\ In href (info_contact_links info).
Proof.
  intros Hnet Hin Hcontact Hslash.
  eexists. split; [apply (extract_contact_info_ok _ _ _ Hnet) |].
  cbn [info_contact_links]. apply list_set_In.
  assert (E : href = rewritten netloc href)
    by (unfold rewritten; now rewrite Hslash).
  rewrite E at 1. apply in_map, filter_In. now split.
Qed.

End Extract.

(** ** The scanning loop *)

Section Batch.

Context {P : Pool}.

Lemma remove_at_perm {A : Type} (i : nat) (l : list A) (d : A) :
  i < List.length l -> Permutation (nth i l d :: remove_at i l) l.
Proof.
  revert i; induction l as [|x l IH]; intros i Hi; simpl in Hi; [lia |].
  destruct i as [|i]; simpl.
  - reflexivity.
  - unfold remove_at in *. simpl.
    rewrite perm_swap. constructor. apply IH. lia.
Qed.

Lemma remove_at_length {A : Type} (i : nat) (l : list A) :
  i < List.length l -> S (List.length (remove_at i l)) = List.length l.
Proof.
  intros Hi. unfold remove_at.
  rewrite length_app, length_firstn, length_skipn. lia.
Qed.

(** [as_completed] yields every future once. *)
Lemma as_completed_perm (n : nat) :
  forall pending, List.length pending <= n ->
  Permutation (as_completed n pending) pending.
Proof.
  induction n as [|n IH]; intros pending Hn.
  - destruct pending; [reflexivity | simpl in Hn; lia].
  - destruct pending as [|f0 rest]; [reflexivity |].
    cbn [as_completed].
    set (pending := f0 :: rest) in *.
    set (i := Nat.modulo _ _).
    assert (Hi : i < List.length pending).
    { subst i. apply Nat.mod_upper_bound. subst pending. simpl. lia. }
    rewrite IH.
    + now apply remove_at_perm.
    + pose proof (remove_at_length i pending Hi). lia.
Qed.

Lemma submit_holds (i : nat) (u : string) :
  future_url (submit i u) = u /\ exists r, holds (submit i u) r.
Proof.
  split; [reflexivity |].
  destruct (check_gtm_returns (L := task_libraries i) u [])
    as [r [sent [E [Hurl _]]]].
  exists r. unfold holds, submit. simpl. now rewrite E.
Qed.

Lemma submit_all_urls (urls : list string) :
  forall i, map future_url (submit_all i urls) = urls.
Proof.
  induction urls as [|u rest IH]; intros i; simpl; [reflexivity | now rewrite IH].
Qed.

Lemma submit_all_hold (urls : list string) :
  forall i, Forall (fun f => exists r, holds f r) (submit_all i urls).
Proof.
  induction urls as [|u rest IH]; intros i; simpl; constructor.
  - apply submit_holds.
  - apply IH.
Qed.

(** The loop appends the record of each completion, in order. *)
Lemma scan_loop_ok (completions : list Future) :
  Forall (fun f => exists r, holds f r) completions ->
  forall results completed,
  exists rs,
    scan_loop completions results completed =
      Ok ((results ++ rs)%list, completed + List.length completions)
    /\ Forall2 holds completions rs.
Proof.
  induction 1 as [|f rest [r Hr] _ IH]; intros results completed.
  - exists []. simpl. rewrite app_nil_r, Nat.add_0_r. split; [reflexivity | constructor].
  - destruct (IH (results ++ [r])%list (S completed)) as [rs [E HF]].
    exists (r :: rs). cbn [scan_loop]. destruct Hr as [Hres Hurl].
    rewrite Hres. simpl. rewrite E, <- app_assoc. simpl.
    rewrite Nat.add_succ_r. split; [reflexivity |].
    constructor; [now split | assumption].
Qed.

Lemma holds_urls (fs : list Future) (rs : list ScanResult) :
  Forall2 holds fs rs ->
  map url rs = map (fun f => add_scheme (future_url f)) fs.
Proof.
  induction 1 as [|f r fs rs [_ Hurl] _ IH]; simpl; [reflexivity |].
  now rewrite Hurl, IH.
Qed.

(** C3. The scan of a list of URLs ends with a list of records that has
    one record per input URL, duplicates and failed scans included: the
    lengths agree, and the URLs of the records are, up to the order of
    completion, the input URLs with their schemes. *)
Theorem one_result_per_url (max_workers : Z) (urls_to_scan : list string) :
  exists results,
    snd (scan_all max_workers urls_to_scan) = Ok results
    /\ List.length results = List.length urls_to_scan
    /\ Permutation (map url results) (map add_scheme urls_to_scan).
Proof.
  unfold scan_all. cbn [snd].
  set (fs := submit_all 0 urls_to_scan).
  pose proof (as_completed_perm (List.length fs) fs (le_n _)) as Hperm.
  assert (Hall : Forall (fun f => exists r, holds f r)
                   (as_completed (List.length fs) fs)).
  { rewrite Forall_forall. intros f Hf.
    pose proof (submit_all_hold urls_to_scan 0) as H.
    rewrite Forall_forall in H. apply H.
    eapply Permutation_in; eassumption. }
  destruct (scan_loop_ok _ Hall [] 0) as [rs [E HF]].
  exists rs. rewrite E. simpl. split; [reflexivity |].
  assert (Hurls : Permutation (map url rs) (map add_scheme urls_to_scan)).
  { rewrite (holds_urls _ _ HF).
    rewrite <- (submit_all_urls urls_to_scan 0) at 1.
    fold fs. rewrite map_map.
    apply Permutation_map. assumption. }
  split; [| assumption].
  apply Permutation_length in Hurls. now rewrite !length_map in Hurls.
Qed.

(** A press of the button on a list that is not empty runs the scan. *)
Lemma main_runs_scan_all (max_workers timeout : Z) (u : string)
    (rest : list string) :
  main max_workers timeout true (u :: rest) =
    Some (scan_all max_workers (u :: rest)).
Proof. reflexivity. Qed.

(** Every request of every task has the timeout 15, whatever the sliders
    say. *)
Lemma scan_all_timeout (max_workers : Z) (urls_to_scan : list string) :
  Forall (fun f => Forall (fun req => req_timeout req = 15%Z) (future_log f))
    (fst (scan_all max_workers urls_to_scan)).
Proof.
  unfold scan_all. cbn [fst]. generalize 0.
  induction urls_to_scan as [|u rest IH]; intros i; simpl; constructor.
  - unfold submit. simpl.
    destruct (check_gtm_timeout (L := task_libraries i) u [])
      as [r [sent [E H]]].
    now rewrite E.
  - apply IH.
Qed.

End Batch.

(** ** The statements at concrete sites *)

Lemma demo_laws (get : Request -> result Response) :
  SetLaws (Demo.libraries get).
Proof.
  split; simpl; unfold Demo.dedup.
  - intros l x. apply nodup_In.
  - intros l. apply NoDup_nodup.
Qed.

(** A site that times out, and a site whose certificate fails and which
    then drops the unverified connection. *)
Lemma check_gtm_never_raises_witness :
  (exists r,
     fst (check_gtm (H := Demo.libraries Demo.site_timeout) "example.com" []) = Ok r
     /\ is_failure r "Error: Read timed out. (read timeout=15)")
  /\ (exists r,
        fst (check_gtm (H := Demo.libraries Demo.site_bad_cert_down) "example.com" []) = Ok r
        /\ is_failure r "SSL Error: Connection aborted.").
Proof.
  split.
  - destruct (@check_gtm_never_raises (Demo.libraries Demo.site_timeout)
                "example.com" []) as [r [log' [E [Herr _]]]].
    exists r. split; [now rewrite E |].
    apply (Herr (mk_exn OtherException "Read timed out. (read timeout=15)")
             [get_request "https://example.com" true]); reflexivity.
  - destruct (@check_gtm_never_raises (Demo.libraries Demo.site_bad_cert_down)
                "example.com" []) as [r [log' [E [_ Hssl]]]].
    exists r. split; [now rewrite E |].
    apply (Hssl (mk_exn SSLError "certificate verify failed")
             [get_request "https://example.com" true]
             (mk_exn OtherException "Connection aborted.")
             [get_request "https://example.com" true;
              get_request "https://example.com" false]); reflexivity.
Defined.

(** C2 at a site whose certificate does not verify and which answers 404 to
    the unverified request: the record reports success with the status 404,
    where the same answer to a verified request is reported as an error. *)
Theorem retry_reports_success_on_404 :
  fst (check_gtm (H := Demo.libraries Demo.site_bad_cert_404) "example.com" []) =
    Ok {| url := "https://example.com";
          gtm_found := true;
          emails := ["info@example.com"];
          phones := ["(415) 555-0100"];
          contact_links := ["https://example.com/about"; "contact.html"];
          status := "Success (SSL verification disabled)";
          http_status := Some 404%Z |}
  /\ fst (check_gtm (H := Demo.libraries Demo.site_404) "example.com" []) =
       Ok (error_result "https://example.com"
             "Error: 404 Client Error: Not Found for url: https://example.com").
Proof. split; reflexivity. Qed.

(** A plain page: the extractor would have found an address on it. *)
Lemma no_gtm_no_extraction_witness :
  (exists info,
     extract_contact_info (H := Demo.libraries Demo.site_plain) Demo.page
       "https://example.com" = Ok info
     /\ info_emails info = ["info@example.com"])
  /\ check_gtm (H := Demo.libraries Demo.site_plain) "example.com" [] =
       (Ok {| url := "https://example.com";
              gtm_found := false;
              emails := [];
              phones := [];
              contact_links := [];
              status := "No GTM found";
              http_status := Some 200%Z |},
        [get_request "https://example.com" true]).
Proof.
  split.
  - eexists. split; reflexivity.
  - apply (@no_gtm_no_extraction (Demo.libraries Demo.site_plain) "example.com" []
             (Demo.response 200 "OK" Demo.plain_body
                (get_request "https://example.com" true))
             Demo.page); reflexivity.
Defined.

(** C6 as it was stated fails on a page served over [http]: the link is
    rewritten with [https]. *)
Lemma http_source_gets_https_link :
  Url.scheme "http://example.com/page" = "http"
  /\ is_contact_href "/contact-us" = true
  /\ startswith "/contact-us" "/" = true
  /\ extract_contact_info (H := Demo.libraries Demo.site_ok)
       {| get_text := ""; find_all_a_href := ["/contact-us"] |}
       "http://example.com/page"
     = Ok {| info_emails := [];
             info_phones := [];
             info_contact_links := ["https://example.com/contact-us"] |}
  /\ startswith "https://example.com/contact-us" "http://" = false.
Proof. repeat split. Qed.

(** The example of the specification: source [https://example.com/page],
    href [/contact-us]. *)
Lemma contact_link_rewritten_witness :
  exists info,
    extract_contact_info (H := Demo.libraries Demo.site_ok)
      {| get_text := ""; find_all_a_href := ["/pricing"; "/contact-us"] |}
      "https://example.com/page" = Ok info
    /\ In "https://example.com/contact-us" (info_contact_links info).
Proof.
  apply (@contact_link_rewritten (Demo.libraries Demo.site_ok)
           (demo_laws Demo.site_ok)
           {| get_text := ""; find_all_a_href := ["/pricing"; "/contact-us"] |}
           "https://example.com/page" "example.com" "/contact-us").
  - reflexivity.
  - simpl. tauto.
  - reflexivity.
  - reflexivity.
Defined.

(** C7 at the timeout slider set to 5: the request goes out with the
    timeout 15. *)
Theorem timeout_slider_ignored :
  option_map
    (fun run => map (fun f => map req_timeout (future_log f)) (fst run))
    (main (H := Demo.pool Demo.site_ok) 3 5 true ["example.com"])
  = Some [[15%Z]]
  /\ main (H := Demo.pool Demo.site_ok) 3 5 true ["example.com"]
     = main (H := Demo.pool Demo.site_ok) 3 30 true ["example.com"].
Proof. split; reflexivity. Qed.

(** C8 as it was stated fails at a site that answers 404: the code is in
    the response, and [http_status] is [None]. *)
Lemma http_status_not_captured :
  exists response r,
    requests_get (Libraries := Demo.libraries Demo.site_404)
      (get_request "https://example.com" true) = Ok response
    /\ status_code response = 404%Z
    /\ fst (check_gtm (H := Demo.libraries Demo.site_404) "example.com" []) = Ok r
    /\ http_status r = None
    /\ http_status r <> Some (status_code response).
Proof.
  eexists. eexists. repeat split; try reflexivity. discriminate.
Qed.

Lemma http_error_in_status_only_witness :
  exists r message,
    check_gtm (H := Demo.libraries Demo.site_404) "example.com" [] =
      (Ok r, [get_request "https://example.com" true])
    /\ is_failure r ("Error: " ++ "404" ++ message)
    /\ http_status r = None.
Proof.
  apply (@http_error_in_status_only (Demo.libraries Demo.site_404) "example.com" []
           (Demo.response 404 "Not Found" Demo.gtm_body
              (get_request "https://example.com" true))).
  - reflexivity.
  - simpl. lia.
Defined.

(** C9 as it was stated fails on a URL with another scheme: the URL is not
    used unchanged. *)
Lemma other_scheme_is_prefixed :
  Url.scheme "ftp://example.com" = "ftp"
  /\ add_scheme "ftp://example.com" = "https://ftp://example.com"
  /\ add_scheme "ftp://example.com" <> "ftp://example.com"
  /\ exists r,
       fst (check_gtm (H := Demo.libraries Demo.site_ok) "ftp://example.com" []) = Ok r
       /\ url r = "https://ftp://example.com".
Proof.
  repeat split; try discriminate. eexists. split; reflexivity.
Qed.

Example upper_case_scheme_is_prefixed :
  Url.scheme "HTTP://example.com" = "http"
  /\ add_scheme "HTTP://example.com" = "https://HTTP://example.com".
Proof. split; reflexivity. Qed.

Lemma url_normalization_witness :
  add_scheme "example.com" = "https://example.com"
  /\ add_scheme "http://example.com" = "http://example.com"
  /\ exists r,
       fst (check_gtm (H := Demo.libraries Demo.site_ok) "example.com" []) = Ok r
       /\ url r = "https://example.com".
Proof.
  destruct (@url_normalization (Demo.libraries Demo.site_ok) "example.com" [])
    as [Hnone [_ [r [sent [E [_ [_ Hurl]]]]]]].
  destruct (@url_normalization (Demo.libraries Demo.site_ok) "http://example.com" [])
    as [_ [Hhttp _]].
  split; [apply Hnone; reflexivity |].
  split; [apply Hhttp; reflexivity |].
  exists r. split; [now rewrite E |].
  rewrite Hurl. reflexivity.
Defined.

(** [contact.html] and [about/team] stay as they are. *)
Lemma relative_href_kept_witness :
  exists info,
    extract_contact_info (H := Demo.libraries Demo.site_ok)
      {| get_text := ""; find_all_a_href := ["contact.html"; "about/team"] |}
      "https://example.com/page" = Ok info
    /\ In "contact.html" (info_contact_links info)
    /\ In "about/team" (info_contact_links info).
Proof.
  pose (soup := {| get_text := "";
                   find_all_a_href := ["contact.html"; "about/team"] |}).
  destruct (@relative_href_kept (Demo.libraries Demo.site_ok)
              (demo_laws Demo.site_ok) soup
              "https://example.com/page" "example.com" "contact.html")
    as [info [E H1]]; [reflexivity | simpl; tauto | reflexivity | reflexivity |].
  destruct (@relative_href_kept (Demo.libraries Demo.site_ok)
              (demo_laws Demo.site_ok) soup
              "https://example.com/page" "example.com" "about/team")
    as [info' [E' H2]]; [reflexivity | simpl; tauto | reflexivity | reflexivity |].
  exists info. split; [exact E |]. split; [exact H1 |].
  rewrite E in E'. injection E' as <-. exact H2.
Defined.

(** Three URLs, one of them twice, at a site that times out. *)
Example three_urls_three_results :
  option_map (fun run => option_map (@List.length ScanResult)
                           (match snd run with Ok rs => Some rs | Raise _ => None end))
    (main (H := Demo.pool Demo.site_timeout) 2 15 true ["a.com"; "b.com"; "a.com"])
  = Some (Some 3).
Proof. reflexivity. Qed.

(** * Further properties of the scanner *)

(** ** The records of check_gtm *)

Section Outcomes.

Context {L : Libraries}.

Lemma raise_for_status_passes (response : Response) :
  raise_for_status response = Ok tt ->
  (status_code response < 400 \/ 600 <= status_code response)%Z.
Proof.
  intros Hok.
  destruct (Z_lt_dec (status_code response) 400) as [Hlt | Hge]; [now left |].
  destruct (Z_le_dec 600 (status_code response)) as [Hle | Hgt]; [now right |].
  assert (Hcode : (400 <= status_code response < 600)%Z) by lia.
  destruct (raise_for_status_error response Hcode) as [kind Hraise].
  rewrite Hraise in Hok. discriminate.
Qed.

(** What a record returned by the outer [try] block looks like. *)
Lemma check_gtm_try_record (u : string) (log log1 : list Request) (r : ScanResult) :
  check_gtm_try u log = (Ok r, log1) ->
  exists response,
    requests_get (get_request u true) = Ok response
    /\ raise_for_status response = Ok tt
    /\ http_status r = Some (status_code response)
    /\ status r = (if gtm_found r then "Success" else "No GTM found")
    /\ (gtm_found r = false ->
        emails r = [] /\ phones r = [] /\ contact_links r = []).
Proof.
  unfold check_gtm_try, bind, http_get, lift, ret.
  fold (get_request u true).
  destruct (requests_get (get_request u true)) as [response |]; [| discriminate].
  destruct (raise_for_status response) as [[] |] eqn:Hstatus; [| discriminate].
  destruct (BeautifulSoup _); [| discriminate].
  destruct (find_gtm (text response)) eqn:Hgtm.
  - destruct (extract_contact_info _ _); [| discriminate].
    intros E; injection E as <- _. exists response.
    do 4 (split; [first [reflexivity | assumption] |]). simpl. discriminate.
  - intros E; injection E as <- _. exists response.
    do 4 (split; [first [reflexivity | assumption] |]). intros _. repeat split.
Qed.

(** What a record returned by the retry looks like. *)
Lemma check_gtm_retry_record (u : string) (log log1 : list Request) (r : ScanResult) :
  check_gtm_retry u log = (Ok r, log1) ->
  exists response,
    requests_get (get_request u false) = Ok response
    /\ http_status r = Some (status_code response)
    /\ status r = "Success (SSL verification disabled)"
    /\ (gtm_found r = false ->
        emails r = [] /\ phones r = [] /\ contact_links r = []).
Proof.
  unfold check_gtm_retry, bind, http_get, lift, ret.
  fold (get_request u false).
  destruct (requests_get (get_request u false)) as [response |]; [| discriminate].
  destruct (BeautifulSoup _); [| discriminate].
  destruct (find_gtm (text response)) eqn:Hgtm.
  - destruct (extract_contact_info _ _); [| discriminate].
    intros E; injection E as <- _. exists response.
    do 3 (split; [reflexivity |]). simpl. discriminate.
  - intros E; injection E as <- _. exists response.
    do 3 (split; [reflexivity |]). intros _. repeat split.
Qed.

Lemma check_gtm_outcome (u : string) (log : list Request) :
  exists r log', check_gtm u log = (Ok r, log') /\ outcome r.
Proof.
  rewrite check_gtm_run.
  destruct (check_gtm_try (add_scheme u) log) as [[r | e] log1] eqn:Etry.
  - exists r, log1. split; [reflexivity |].
    destruct (check_gtm_try_record _ _ _ _ Etry)
      as [response [_ [Hpass [Hcode [Hstatus Hempty]]]]].
    apply raise_for_status_passes in Hpass.
    destruct (gtm_found r) eqn:Hgtm.
    + now apply FoundGtm with (status_code response).
    + destruct (Hempty eq_refl) as [He [Hp Hc]].
      now apply NoGtm with (status_code response).
  - destruct (is_SSLError e).
    + destruct (check_gtm_retry (add_scheme u) log1) as [[r | e'] log2] eqn:Eretry.
      * exists r, log2. split; [reflexivity |].
        destruct (check_gtm_retry_record _ _ _ _ Eretry)
          as [response [_ [Hcode [Hstatus Hempty]]]].
        now apply Unverified with (status_code response).
      * eexists. exists log2. split; [reflexivity |].
        apply FailedRetry with (exn_str e'). repeat split.
    + eexists. exists log1. split; [reflexivity |].
      apply Failed with (exn_str e). repeat split.
Qed.

(** X1. In every record [check_gtm] returns, contact data goes with a
    detection: a record with [gtm_found] false has [emails], [phones] and
    [contact_links] empty, on the verified path, on the retry and on
    failure alike; and a record with [gtm_found] true has one of the two
    success statuses and an HTTP status. *)
Theorem contact_data_needs_gtm (u : string) (log : list Request) :
  exists r log',
    check_gtm u log = (Ok r, log')
    /\ (gtm_found r = false ->
        emails r = [] /\ phones r = [] /\ contact_links r = [])
    /\ (gtm_found r = true ->
        (status r = "Success"
         \/ status r = "Success (SSL verification disabled)")
        /\ http_status r <> None).
Proof.
  destruct (check_gtm_outcome u log) as [r [log' [E H]]].
  exists r, log'. split; [assumption |].
  destruct H as [c Hs Hg Hc _ | c Hs Hg Hc _ He Hp Hl | c Hs Hc Hempty
                 | m [Hg [He [Hp [Hl [Hc Hs]]]]] | m [Hg [He [Hp [Hl [Hc Hs]]]]]].
  - split; [congruence |]. intros _. split; [now left | congruence].
  - split; [now intros _ | congruence].
  - split; [assumption |]. intros _. split; [now right | congruence].
  - split; [now intros _ | congruence].
  - split; [now intros _ | congruence].
Qed.

(** X2. The statuses ["Success"] and ["No GTM found"] never go with an
    HTTP status from 400 to 599; and [http_status] is [None] exactly in
    the records whose status begins with ["Error: "] or ["SSL Error: "]. *)
Theorem status_and_http_status (u : string) (log : list Request) :
  exists r log',
    check_gtm u log = (Ok r, log')
    /\ (status r = "Success" \/ status r = "No GTM found" ->
        exists c, http_status r = Some c /\ (c < 400 \/ 600 <= c)%Z)
    /\ (http_status r = None <->
        startswith (status r) "Error: " = true
        \/ startswith (status r) "SSL Error: " = true).
Proof.
  destruct (check_gtm_outcome u log) as [r [log' [E H]]].
  exists r, log'. split; [assumption |].
  destruct H as [c Hs Hg Hc Hok | c Hs Hg Hc Hok He Hp Hl | c Hs Hc Hempty
                 | m [Hg [He [Hp [Hl [Hc Hs]]]]] | m [Hg [He [Hp [Hl [Hc Hs]]]]]];
    rewrite Hs, Hc.
  - split; [intros _; now exists c |].
    split; [discriminate | intros [F | F]; discriminate].
  - split; [intros _; now exists c |].
    split; [discriminate | intros [F | F]; discriminate].
  - split; [intros [F | F]; discriminate |].
    split; [discriminate | intros [F | F]; discriminate].
  - split; [intros [F | F]; discriminate |].
    split; [intros _; now left | reflexivity].
  - split; [intros [F | F]; discriminate |].
    split; [intros _; now right | reflexivity].
Qed.


Lemma add_scheme_has_scheme (u : string) :
  startswith_any (add_scheme u) ["http://"; "https://"] = true.
Proof.
  unfold add_scheme.
  destruct (startswith_any u ["http://"; "https://"]) eqn:E; simpl.
  - assumption.
  - reflexivity.
Qed.

(** X4. The URL of a record begins with ["http://"] or ["https://"], and
    adding the scheme is idempotent: a scan of the recorded URL is the
    scan that produced the record. *)
Theorem rescan_recorded_url (u : string) (log : list Request) :
  exists r log',
    check_gtm u log = (Ok r, log')
    /\ startswith_any (url r) ["http://"; "https://"] = true
    /\ add_scheme (url r) = url r
    /\ check_gtm (url r) log = check_gtm u log.
Proof.
  destruct (check_gtm_returns u log) as [r [sent [E [Hurl _]]]].
  exists r. eexists. split; [exact E |].
  assert (Hidem : add_scheme (add_scheme u) = add_scheme u).
  { unfold add_scheme at 1. now rewrite add_scheme_has_scheme. }
  rewrite Hurl. split; [apply add_scheme_has_scheme |].
  split; [assumption |].
  unfold check_gtm. now rewrite Hidem.
Qed.

End Outcomes.

(** ** The contact links *)

Lemma lower_append (a b : string) : lower (a ++ b) = lower a ++ lower b.
Proof. induction a as [|c a IH]; simpl; [reflexivity | now rewrite IH]. Qed.

Lemma lower_split (s x y : string) :
  lower s = x ++ y -> exists a b, s = a ++ b /\ lower a = x /\ lower b = y.
Proof.
  revert s; induction x as [|c x IH]; intros s E; simpl in E.
  - now exists "", s.
  - destruct s as [|d s]; [discriminate |]. simpl in E.
    injection E as Hc E. destruct (IH s E) as [a [b [-> [Ha Hb]]]].
    exists (String d a), b. simpl. now rewrite Hc, Ha.
Qed.

(** X5. The test on an [href] is the search for one of the two words in
    any mix of cases: an [href] passes exactly when a piece of it, put in
    lower case, reads "contact" or "about". *)
Theorem is_contact_href_any_case (href : string) :
  is_contact_href href = true <->
  exists a w b,
    href = a ++ w ++ b /\ (lower w = "contact" \/ lower w = "about").
Proof.
  unfold is_contact_href. rewrite orb_true_iff, !contains_iff. split.
  - intros [[x [y E]] | [x [y E]]].
    + destruct (lower_split _ _ _ E) as [a [t [-> [_ Ht]]]].
      destruct (lower_split _ _ _ Ht) as [w [b [-> [Hw _]]]].
      exists a, w, b. split; [reflexivity | now left].
    + destruct (lower_split _ _ _ E) as [a [t [-> [_ Ht]]]].
      destruct (lower_split _ _ _ Ht) as [w [b [-> [Hw _]]]].
      exists a, w, b. split; [reflexivity | now right].
  - intros [a [w [b [-> [Hw | Hw]]]]]; [left | right];
      exists (lower a), (lower b); now rewrite !lower_append, Hw.
Qed.

Section Links.

Context {L : Libraries} {Laws : SetLaws L}.

(** X6. When [urlparse] gives the host of the source URL, the three lists
    of the extractor have no duplicates, and [contact_links] holds exactly
    the anchors that pass the test, each as it stands or, when it begins
    with [/], behind ["https://"] and the host: an anchor that does not
    pass the test never gets in. *)
Theorem contact_links_exactly (soup : Soup) (u netloc : string) :
  Url.netloc u = Ok netloc ->
  exists info,
    extract_contact_info soup u = Ok info
    /\ NoDup (info_emails info) /\ NoDup (info_phones info)
    /\ NoDup (info_contact_links info)
    /\ forall link,
         In link (info_contact_links info) <->
         exists href,
           In href (find_all_a_href soup)
           /\ is_contact_href href = true
           /\ link = rewritten netloc href.
Proof.
  intros Hnet. eexists. split; [apply (extract_contact_info_ok _ _ _ Hnet) |].
  cbn [info_emails info_phones info_contact_links].
  do 3 (split; [apply list_set_NoDup |]).
  intros link. rewrite list_set_In, in_map_iff. split.
  - intros [href [E Hin]]. apply filter_In in Hin as [Hin Hc].
    exists href. now repeat split.
  - intros [href [Hin [Hc E]]]. exists href.
    split; [now symmetry | now apply filter_In].
Qed.

Lemma collect_contact_links_no_slash (u : string) (hrefs acc : list string) :
  (forall href, In href hrefs -> is_contact_href href = true ->
                startswith href "/" = false) ->
  collect_contact_links u hrefs acc =
    Ok (acc ++ filter is_contact_href hrefs)%list.
Proof.
  revert acc; induction hrefs as [|href rest IH]; intros acc Hno; simpl.
  - now rewrite app_nil_r.
  - assert (Hrest : forall h, In h rest -> is_contact_href h = true ->
                              startswith h "/" = false)
      by (intros h Hin; apply Hno; now right).
    destruct (is_contact_href href) eqn:Hc; [| now apply IH].
    unfold contact_link. rewrite (Hno href (or_introl eq_refl) Hc).
    cbn [rbind]. rewrite IH by assumption. now rewrite <- app_assoc.
Qed.

Lemma collect_contact_links_raises (u : string) (e : exn)
    (hrefs acc : list string) :
  Url.netloc u = Raise e ->
  (exists href, In href hrefs /\ is_contact_href href = true
                /\ startswith href "/" = true) ->
  collect_contact_links u hrefs acc = Raise e.
Proof.
  intros Hnet. revert acc.
  induction hrefs as [|href rest IH]; intros acc [h [Hin [Hc Hs]]];
    [destruct Hin |]. simpl.
  destruct (is_contact_href href) eqn:Hc'.
  - unfold contact_link. destruct (startswith href "/") eqn:Hs'.
    + now rewrite Hnet.
    + cbn [rbind]. apply IH. exists h.
      destruct Hin as [-> | Hin]; [congruence | now repeat split].
  - apply IH. exists h.
    destruct Hin as [-> | Hin]; [congruence | now repeat split].
Qed.

(** X7. The extractor asks [urlparse] for the host only to rewrite a link:
    when [urlparse] rejects the source URL, the extractor raises that
    exception if some anchor passes the test and begins with [/], and
    otherwise returns, with the passing anchors as they stand. *)
Theorem extract_raises_only_to_rewrite (soup : Soup) (u : string) (e : exn) :
  Url.netloc u = Raise e ->
  (existsb (fun href => is_contact_href href && startswith href "/")
     (find_all_a_href soup) = true ->
   extract_contact_info soup u = Raise e)
  /\ (existsb (fun href => is_contact_href href && startswith href "/")
        (find_all_a_href soup) = false ->
      exists info,
        extract_contact_info soup u = Ok info
        /\ info_contact_links info =
             list_set (filter is_contact_href (find_all_a_href soup))).
Proof.
  intros Hnet. unfold extract_contact_info. split; intros Hex.
  - apply existsb_exists in Hex as [href [Hin Hb]].
    apply andb_true_iff in Hb as [Hc Hs].
    rewrite (collect_contact_links_raises u e); [reflexivity | assumption |].
    now exists href.
  - rewrite collect_contact_links_no_slash.
    + eexists. split; reflexivity.
    + intros href Hin Hc.
      destruct (startswith href "/") eqn:Hs; [| reflexivity].
      assert (F : existsb (fun h => is_contact_href h && startswith h "/")
                    (find_all_a_href soup) = true).
      { apply existsb_exists. exists href. now rewrite Hc, Hs. }
      congruence.
Qed.

End Links.





(** ** The signatures of find_gtm, read on the text *)

Lemma Matches_Seq_iff (r1 r2 : regex) (m : string) :
  Matches (Seq r1 r2) m <->
  exists m1 m2, m = m1 ++ m2 /\ Matches r1 m1 /\ Matches r2 m2.
Proof.
  split.
  - intros H; inversion H; subst. now exists s1, s2.
  - intros [m1 [m2 [-> [H1 H2]]]]. now constructor.
Qed.

Lemma Matches_Class_iff (p : ascii -> bool) (m : string) :
  Matches (Class p) m <-> exists c, m = String c "" /\ p c = true.
Proof.
  split.
  - intros H; inversion H; subst. now exists c.
  - intros [c [-> Hc]]. now constructor.
Qed.

Lemma Matches_Star_Class_all (r : regex) (w : string) :
  Matches r w -> forall p, r = Star (Class p) -> Url.all_chars p w = true.
Proof.
  induction 1 as [| | | | | |r1 s1 s2 H1 _ H2 IH2]; intros q E; try discriminate.
  - reflexivity.
  - injection E as ->. apply Matches_Class_iff in H1 as [c [-> Hc]].
    simpl. now rewrite Hc, (IH2 q eq_refl).
Qed.

Lemma Matches_Star_Class (p : ascii -> bool) (w : string) :
  Matches (Star (Class p)) w <-> Url.all_chars p w = true.
Proof.
  split.
  - intros H. now apply Matches_Star_Class_all with (Star (Class p)).
  - induction w as [|c w IH]; simpl; intros H; [constructor |].
    apply andb_true_iff in H as [Hc Hw].
    change (String c w) with (String c "" ++ w).
    constructor; [now constructor | now apply IH].
Qed.

Lemma occurs_container (s : string) :
  occurs_in gtm_container_pattern s <->
  exists c, is_upper_or_digit c = true
            /\ contains ("GTM-" ++ String c "") s = true.
Proof.
  split.
  - intros [a [m [b [-> H]]]]. unfold gtm_container_pattern, Plus in H.
    apply Matches_Seq_iff in H as [m1 [m2 [-> [H1 H2]]]].
    apply Matches_Lit in H1. subst m1.
    apply Matches_Seq_iff in H2 as [m3 [m4 [-> [H3 _]]]].
    apply Matches_Class_iff in H3 as [c [-> Hc]].
    exists c. split; [assumption |]. apply contains_iff.
    exists a, (m4 ++ b). simpl. reflexivity.
  - intros [c [Hc H]]. apply contains_iff in H as [a [b ->]].
    exists a, ("GTM-" ++ String c ""), b. split; [reflexivity |].
    unfold gtm_container_pattern, Plus.
    constructor; [now apply Matches_Lit |].
    change (String c "") with (String c "" ++ "").
    constructor; [now constructor | constructor].
Qed.

Lemma occurs_datalayer (s : string) :
  occurs_in datalayer_pattern s <->
  exists w1 w2 w3,
    Url.all_chars is_space w1 = true /\ Url.all_chars is_space w2 = true
    /\ Url.all_chars is_space w3 = true
    /\ contains ("dataLayer" ++ w1 ++ "=" ++ w2 ++ "[" ++ w3 ++ "]") s = true.
Proof.
  split.
  - intros [a [m [b [-> H]]]]. unfold datalayer_pattern in H.
    apply Matches_Seq_iff in H as [m0 [t0 [-> [H0 H]]]].
    apply Matches_Lit in H0. subst m0.
    apply Matches_Seq_iff in H as [w1 [t1 [-> [H1 H]]]].
    apply Matches_Seq_iff in H as [e [t2 [-> [He H]]]].
    apply Matches_Chr in He. subst e.
    apply Matches_Seq_iff in H as [w2 [t3 [-> [H2 H]]]].
    apply Matches_Seq_iff in H as [o [t4 [-> [Ho H]]]].
    apply Matches_Chr in Ho. subst o.
    apply Matches_Seq_iff in H as [w3 [cl [-> [H3 Hc]]]].
    apply Matches_Chr in Hc. subst cl.
    apply Matches_Star_Class in H1, H2, H3.
    exists w1, w2, w3. repeat (split; [assumption |]).
    apply contains_iff. now exists a, b.
  - intros [w1 [w2 [w3 [H1 [H2 [H3 H]]]]]].
    apply contains_iff in H as [a [b ->]].
    exists a, ("dataLayer" ++ w1 ++ "=" ++ w2 ++ "[" ++ w3 ++ "]"), b.
    split; [reflexivity |]. unfold datalayer_pattern.
    apply Matches_Star_Class in H1, H2, H3.
    constructor; [now apply Matches_Lit |].
    constructor; [assumption |].
    change ("=" ++ w2 ++ "[" ++ w3 ++ "]")
      with (String "=" "" ++ w2 ++ "[" ++ w3 ++ "]").
    constructor; [now apply Matches_Chr |].
    constructor; [assumption |].
    change ("[" ++ w3 ++ "]") with (String "[" "" ++ w3 ++ "]").
    constructor; [now apply Matches_Chr |].
    constructor; [assumption | now apply Matches_Chr].
Qed.

(** X9. What [find_gtm] looks for, as tests on the text: the loader path
    [googletagmanager.com/gtm.js]; or [GTM-] followed by an upper-case
    letter or a digit; or [dataLayer], [=], an opening and a closing
    bracket with nothing but white space between them; or the [noscript]
    address up to [GTM-].  Nothing else is detected. *)
Theorem find_gtm_reads (content : string) :
  find_gtm content = true <->
  contains "googletagmanager.com/gtm.js" content = true
  \/ (exists c, is_upper_or_digit c = true
                /\ contains ("GTM-" ++ String c "") content = true)
  \/ (exists w1 w2 w3,
        Url.all_chars is_space w1 = true /\ Url.all_chars is_space w2 = true
        /\ Url.all_chars is_space w3 = true
        /\ contains ("dataLayer" ++ w1 ++ "=" ++ w2 ++ "[" ++ w3 ++ "]")
             content = true)
  \/ contains "www.googletagmanager.com/ns.html?id=GTM-" content = true.
Proof.
  rewrite find_gtm_patterns. split.
  - intros [p [Hp H]]. unfold gtm_patterns in Hp. cbn [In] in Hp.
    destruct Hp as [<- | [<- | [<- | [<- | [<- | []]]]]].
    + left. now apply occurs_Lit.
    + right; left. now apply occurs_container.
    + left. apply gtm_init_has_script in H. now apply occurs_Lit.
    + right; right; left. now apply occurs_datalayer.
    + right; right; right. now apply occurs_Lit.
  - intros [H | [H | [H | H]]].
    + exists gtm_script_pattern. split; [cbn [gtm_patterns In]; tauto |].
      now apply occurs_Lit.
    + exists gtm_container_pattern. split; [cbn [gtm_patterns In]; tauto |].
      now apply occurs_container.
    + exists datalayer_pattern. split; [cbn [gtm_patterns In]; tauto |].
      now apply occurs_datalayer.
    + exists gtm_noscript_pattern. split; [cbn [gtm_patterns In]; tauto |].
      now apply occurs_Lit.
Qed.

(** X10. A detection does not depend on what stands around it: text put
    before and after a page in which GTM is found leaves it found. *)
Theorem find_gtm_in_context (before content after : string) :
  find_gtm content = true ->
  find_gtm (before ++ content ++ after) = true.
Proof.
  rewrite !find_gtm_patterns. intros [p [Hp [a [m [b [-> H]]]]]].
  exists p. split; [assumption |].
  exists (before ++ a), m, (b ++ after). split; [| assumption].
  now rewrite !append_assoc.
Qed.

(** ** The text area *)

Lemma lstrip_head (s : string) :
  lstrip s = "" \/ exists c t, lstrip s = String c t /\ is_space c = false.
Proof.
  induction s as [|c s IH]; simpl; [now left |].
  destruct (is_space c) eqn:E; [assumption | right; now exists c, s].
Qed.

Lemma rstrip_cons (c : ascii) (s : string) :
  is_space c = false -> rstrip (String c s) = String c (rstrip s).
Proof. intros E. simpl. rewrite E. now destruct (rstrip s). Qed.

Lemma rstrip_keeps (c d : ascii) (s r : string) :
  rstrip s = String d r -> rstrip (String c s) = String c (String d r).
Proof. intros E. simpl. now rewrite E. Qed.

Lemma rstrip_idem (s : string) : rstrip (rstrip s) = rstrip s.
Proof.
  induction s as [|c s IH]; [reflexivity |].
  destruct (rstrip s) as [|d r] eqn:E.
  - simpl. rewrite E.
    destruct (is_space c) eqn:Hc; simpl; [reflexivity | now rewrite Hc].
  - rewrite (rstrip_keeps c d s r E). now apply rstrip_keeps.
Qed.

Lemma strip_idem (s : string) : strip (strip s) = strip s.
Proof.
  unfold strip. destruct (lstrip_head s) as [-> | [c [t [-> Hc]]]];
    [reflexivity |].
  rewrite (rstrip_cons _ _ Hc). cbn [lstrip]. rewrite Hc.
  rewrite <- (rstrip_cons _ _ Hc). apply rstrip_idem.
Qed.

Lemma split_newline_lines (s : string) :
  split_newline s <> [] /\ Forall (fun l => Url.all_chars line_char l = true)
                             (split_newline s).
Proof.
  induction s as [|c s [Hne IH]]; simpl.
  - split; [discriminate | now repeat constructor].
  - destruct (Ascii.eqb c newline) eqn:E.
    + split; [discriminate | now constructor].
    + destruct (split_newline s) as [|l ls]; [congruence |].
      split; [discriminate |]. inversion IH; subst.
      constructor; [| assumption]. simpl. unfold line_char at 1.
      now rewrite E.
Qed.

Lemma lstrip_line (s : string) :
  Url.all_chars line_char s = true -> Url.all_chars line_char (lstrip s) = true.
Proof.
  induction s as [|c s IH]; simpl; [reflexivity |]. intros H.
  destruct (is_space c); [| assumption].
  apply andb_true_iff in H as [_ H]. now apply IH.
Qed.

Lemma rstrip_line (s : string) :
  Url.all_chars line_char s = true -> Url.all_chars line_char (rstrip s) = true.
Proof.
  induction s as [|c s IH]; simpl; [reflexivity |]. intros H.
  apply andb_true_iff in H as [Hc H]. specialize (IH H).
  destruct (rstrip s).
  - destruct (is_space c); simpl; [reflexivity | now rewrite Hc].
  - simpl in *. now rewrite Hc, IH.
Qed.

(** X11. Every URL that the text area yields is a line that needs no more
    cleaning: it is not empty, it has no white space at either end
    ([strip] leaves it alone) and no newline in it.  Blank lines yield
    nothing. *)
Theorem manual_urls_clean (urls_text : string) :
  Forall clean_line (manual_urls urls_text).
Proof.
  unfold manual_urls. destruct (String.eqb urls_text ""); [constructor |].
  destruct (split_newline_lines urls_text) as [_ Hlines].
  induction Hlines as [|l ls Hl _ IH]; simpl; [constructor |].
  destruct (String.eqb (strip l) "") eqn:E; simpl; [assumption |].
  constructor; [| assumption].
  apply String.eqb_neq in E. split; [assumption |].
  split; [apply strip_idem |].
  unfold strip. now apply rstrip_line, lstrip_line.
Qed.

Lemma split_newline_line (u : string) :
  Url.all_chars line_char u = true -> split_newline u = [u].
Proof.
  induction u as [|c u IH]; simpl; [reflexivity |]. intros H.
  apply andb_true_iff in H as [Hc H]. unfold line_char in Hc.
  apply negb_true_iff in Hc. now rewrite Hc, (IH H).
Qed.

Lemma split_newline_app (u rest : string) :
  Url.all_chars line_char u = true ->
  split_newline (u ++ String newline rest) = u :: split_newline rest.
Proof.
  induction u as [|c u IH]; simpl; [reflexivity |]. intros H.
  apply andb_true_iff in H as [Hc H]. unfold line_char in Hc.
  apply negb_true_iff in Hc. now rewrite Hc, (IH H).
Qed.

Lemma split_newline_concat (u : string) (urls : list string) :
  Forall (fun l => Url.all_chars line_char l = true) (u :: urls) ->
  split_newline (concat (String newline "") (u :: urls)) = u :: urls.
Proof.
  revert u; induction urls as [|v urls IH]; intros u H.
  - inversion H; subst. now apply split_newline_line.
  - inversion H; subst.
    change (concat (String newline "") (u :: v :: urls))
      with (u ++ String newline (concat (String newline "") (v :: urls))).
    rewrite split_newline_app by assumption. now rewrite IH.
Qed.

Lemma clean_lines_kept (lines : list string) :
  Forall clean_line lines ->
  map strip (filter (fun url => negb (String.eqb (strip url) "")) lines) = lines.
Proof.
  induction 1 as [|l ls [Hl [Hs _]] _ IH]; [reflexivity |].
  cbn [filter]. rewrite Hs.
  apply String.eqb_neq in Hl. rewrite Hl. cbn [negb map].
  now rewrite Hs, IH.
Qed.

(** X12. The text area gives back what was typed: when the lines are
    clean (not empty, stripped, without newline), the text made of them,
    one per line, yields these lines, in order and with their duplicates. *)
Theorem manual_urls_of_lines (urls : list string) :
  Forall clean_line urls ->
  manual_urls (concat (String newline "") urls) = urls.
Proof.
  intros Hclean. destruct urls as [|u urls]; [reflexivity |].
  unfold manual_urls.
  assert (Hne : String.eqb (concat (String newline "") (u :: urls)) "" = false).
  { apply String.eqb_neq. inversion Hclean as [|? ? [Hu _] _]; subst.
    destruct u; [congruence |]. destruct urls; discriminate. }
  rewrite Hne, split_newline_concat.
  - now apply clean_lines_kept.
  - eapply Forall_impl; [| exact Hclean]. now intros l [_ [_ H]].
Qed.

(** ** Progress and metrics *)

Section Run.

Context {P : Pool}.

Lemma scan_loop_progress_ok (total_urls : nat) (completions : list Future) :
  Forall (fun f => exists r, holds f r) completions ->
  forall completed,
    scan_loop_progress total_urls completions completed =
      map (fun k => (k, total_urls))
        (seq (S completed) (List.length completions)).
Proof.
  induction 1 as [|f rest [r [Hr _]] _ IH]; intros completed; simpl;
    [reflexivity |].
  now rewrite Hr, IH.
Qed.

Lemma submit_all_length (urls : list string) :
  forall i, List.length (submit_all i urls) = List.length urls.
Proof.
  induction urls as [|u rest IH]; intros i; simpl; [reflexivity | now rewrite IH].
Qed.

Lemma completions_hold (urls : list string) :
  let fs := submit_all 0 urls in
  List.length (as_completed (List.length fs) fs) = List.length urls
  /\ Forall (fun f => exists r, holds f r) (as_completed (List.length fs) fs).
Proof.
  intros fs.
  pose proof (as_completed_perm (List.length fs) fs (le_n _)) as Hperm.
  split.
  - rewrite (Permutation_length Hperm). apply submit_all_length.
  - rewrite Forall_forall. intros f Hf.
    pose proof (submit_all_hold urls 0) as H.
    rewrite Forall_forall in H. apply H.
    eapply Permutation_in; eassumption.
Qed.

(** X13. During a scan of [n] URLs the progress is shown [n] times, with
    the counts 1, 2, ..., [n] out of [n]: each count is at least 1 and at
    most the total, so the fraction handed to the progress bar lies in
    (0, 1] and the total it is divided by is not zero. *)
Theorem progress_counts_up (urls_to_scan : list string) :
  scan_all_progress urls_to_scan =
    map (fun k => (k, List.length urls_to_scan))
      (seq 1 (List.length urls_to_scan))
  /\ Forall (fun shown => 1 <= fst shown <= snd shown /\ snd shown <> 0)
       (scan_all_progress urls_to_scan).
Proof.
  assert (E : scan_all_progress urls_to_scan =
              map (fun k => (k, List.length urls_to_scan))
                (seq 1 (List.length urls_to_scan))).
  { unfold scan_all_progress.
    destruct (completions_hold urls_to_scan) as [Hlen Hall].
    rewrite (scan_loop_progress_ok _ _ Hall 0). now rewrite Hlen. }
  split; [assumption |]. rewrite E.
  apply Forall_forall. intros [k n] Hin.
  apply in_map_iff in Hin as [k' [Hk Hin]]. injection Hk as <- <-.
  apply in_seq in Hin. simpl. lia.
Qed.

Lemma submit_all_in (urls : list string) :
  forall i f, In f (submit_all i urls) ->
  exists j u, In u urls /\ f = submit j u.
Proof.
  induction urls as [|u rest IH]; intros i f Hin; simpl in Hin; [destruct Hin |].
  destruct Hin as [<- | Hin].
  - exists i, u. split; [now left | reflexivity].
  - destruct (IH _ _ Hin) as [j [v [Hv ->]]]. exists j, v. split; [now right | reflexivity].
Qed.

Lemma holds_in (fs : list Future) (rs : list ScanResult) :
  Forall2 holds fs rs ->
  forall r, In r rs -> exists f, In f fs /\ future_result f = Ok r.
Proof.
  induction 1 as [|f r0 fs rs [Hres _] _ IH]; intros r Hin; [destruct Hin |].
  destruct Hin as [<- | Hin].
  - exists f. split; [now left | assumption].
  - destruct (IH r Hin) as [g [Hg Hr]]. exists g. split; [now right | assumption].
Qed.

(** Every record of the run is the record [check_gtm] returned to one of
    the tasks. *)
Lemma scan_all_records (max_workers : Z) (urls_to_scan : list string) :
  exists results,
    snd (scan_all max_workers urls_to_scan) = Ok results
    /\ List.length results = List.length urls_to_scan
    /\ forall r, In r results ->
         exists i u, In u urls_to_scan
           /\ fst (check_gtm (H := task_libraries i) u []) = Ok r.
Proof.
  unfold scan_all. cbn [snd].
  destruct (completions_hold urls_to_scan) as [Hlen Hall].
  set (fs := submit_all 0 urls_to_scan) in *.
  destruct (scan_loop_ok _ Hall [] 0) as [rs [E HF]].
  exists rs. rewrite E. simpl. split; [reflexivity |]. split.
  - rewrite <- (Forall2_length HF). assumption.
  - intros r Hin. destruct (holds_in _ _ HF r Hin) as [f [Hf Hr]].
    assert (Hfs : In f fs).
    { eapply Permutation_in; [| exact Hf].
      apply as_completed_perm. apply le_n. }
    destruct (submit_all_in _ _ _ Hfs) as [j [u [Hu ->]]].
    exists j, u. split; [assumption |]. exact Hr.
Qed.

(** X14. After a scan of a list that is not empty, the quotient under
    "Success Rate" is defined: [results] has as many rows as there were
    URLs, at least one, and the number of rows with GTM is at most that.
    The rows shown in detail, those with [gtm_found], all have one of the
    two success statuses: a failed scan is never shown there. *)
Theorem metrics_are_defined (max_workers : Z) (u : string) (rest : list string) :
  exists results found total,
    snd (scan_all max_workers (u :: rest)) = Ok results
    /\ success_rate results = Ok (found, total)
    /\ total = List.length (u :: rest)
    /\ found <= total
    /\ Forall (fun r => status r = "Success"
                        \/ status r = "Success (SSL verification disabled)")
         (gtm_found_rows results).
Proof.
  destruct (scan_all_records max_workers (u :: rest)) as [results [E [Hlen Hrec]]].
  exists results, (List.length (gtm_found_rows results)), (List.length results).
  split; [assumption |]. split.
  - unfold success_rate. rewrite Hlen. reflexivity.
  - split; [assumption |]. split; [apply filter_length_le |].
    apply Forall_forall. intros r Hin.
    apply filter_In in Hin as [Hin Hgtm].
    destruct (Hrec r Hin) as [i [v [_ Hr]]].
    destruct (check_gtm_outcome (L := task_libraries i) v [])
      as [r' [log' [Ec Hout]]].
    rewrite Ec in Hr. injection Hr as ->.
    destruct Hout as [c Hs _ _ _ | c _ Hg _ _ _ _ _ | c Hs _ _
                      | m [Hg _] | m [Hg _]];
      try congruence; [now left | now right].
Qed.

End Run.

(** ** Pages with GTM *)

Section Pages.

Context {L : Libraries}.

(** X15. The record of a page with GTM: when the verified fetch returns a
    response that passes the status check and parses, its content has a GTM
    signature and [urlparse] gives the host of the URL, the record has the
    status ["Success"], the status code of the response, and the three
    lists of the extractor on the parsed page, the links rewritten against
    the URL with its scheme. *)
Theorem gtm_page_record (u : string) (log : list Request)
    (response : Response) (soup : Soup) (netloc : string) :
  requests_get (get_request (add_scheme u) true) = Ok response ->
  raise_for_status response = Ok tt ->
  BeautifulSoup (text response) = Ok soup ->
  find_gtm (text response) = true ->
  Url.netloc (add_scheme u) = Ok netloc ->
  check_gtm u log =
    (Ok {| url := add_scheme u;
           gtm_found := true;
           emails := list_set (re_findall email_pattern (get_text soup));
           phones := list_set (re_findall phone_pattern (get_text soup));
           contact_links :=
             list_set (map (rewritten netloc)
                         (filter is_contact_href (find_all_a_href soup)));
           status := "Success";
           http_status := Some (status_code response) |},
     (log ++ [get_request (add_scheme u) true])%list).
Proof.
  intros Hget Hstatus Hsoup Hgtm Hnet.
  rewrite check_gtm_run.
  unfold check_gtm_try, bind, http_get, lift, ret.
  fold (get_request (add_scheme u) true).
  rewrite Hget, Hstatus, Hsoup, Hgtm.
  now rewrite (extract_contact_info_ok soup _ _ Hnet).
Qed.

(** X16. A failure after the fetch discards the detection: when the page
    cannot be parsed, or has GTM and the extractor raises, with an
    exception other than [SSLError], the record is the failure record,
    with [gtm_found] false and no HTTP status, whatever the content and the
    status code of the response were. *)
Theorem failure_after_fetch (u : string) (log : list Request)
    (response : Response) (e : exn) :
  requests_get (get_request (add_scheme u) true) = Ok response ->
  raise_for_status response = Ok tt ->
  BeautifulSoup (text response) = Raise e
  \/ (exists soup,
        BeautifulSoup (text response) = Ok soup
        /\ find_gtm (text response) = true
        /\ extract_contact_info soup (add_scheme u) = Raise e) ->
  is_SSLError e = false ->
  check_gtm u log =
    (Ok (error_result (add_scheme u) ("Error: " ++ exn_str e)),
     (log ++ [get_request (add_scheme u) true])%list).
Proof.
  intros Hget Hstatus Hfail Hssl.
  rewrite check_gtm_run.
  unfold check_gtm_try, bind, http_get, lift, ret.
  fold (get_request (add_scheme u) true).
  rewrite Hget, Hstatus.
  destruct Hfail as [Hsoup | [soup [Hsoup [Hgtm Hextract]]]].
  - now rewrite Hsoup, Hssl.
  - now rewrite Hsoup, Hgtm, Hextract, Hssl.
Qed.

End Pages.

(** ** The further properties at concrete sites *)

Lemma contact_links_exactly_witness :
  exists info,
    extract_contact_info (H := Demo.libraries Demo.site_ok) Demo.page
      "https://example.com/page" = Ok info
    /\ NoDup (info_emails info) /\ NoDup (info_phones info)
    /\ NoDup (info_contact_links info)
    /\ forall link,
         In link (info_contact_links info) <->
         exists href,
           In href (find_all_a_href Demo.page)
           /\ is_contact_href href = true
           /\ link = rewritten "example.com" href.
Proof.
  apply (@contact_links_exactly (Demo.libraries Demo.site_ok)
           (demo_laws Demo.site_ok) Demo.page
           "https://example.com/page" "example.com").
  reflexivity.
Defined.

(** A URL with an opening bracket and no closing one. *)
Lemma extract_raises_only_to_rewrite_witness :
  extract_contact_info (H := Demo.libraries Demo.site_ok)
    {| get_text := ""; find_all_a_href := ["/about"] |} "https://[::1/x"
  = Raise (mk_exn ValueError "Invalid IPv6 URL")
  /\ exists info,
       extract_contact_info (H := Demo.libraries Demo.site_ok)
         {| get_text := ""; find_all_a_href := ["contact.html"; "/pricing"] |}
         "https://[::1/x" = Ok info
       /\ info_contact_links info = ["contact.html"].
Proof.
  split.
  - apply (@extract_raises_only_to_rewrite (Demo.libraries Demo.site_ok)
             {| get_text := ""; find_all_a_href := ["/about"] |}
             "https://[::1/x" (mk_exn ValueError "Invalid IPv6 URL"));
      reflexivity.
  - apply (@extract_raises_only_to_rewrite (Demo.libraries Demo.site_ok)
             {| get_text := "";
                find_all_a_href := ["contact.html"; "/pricing"] |}
             "https://[::1/x" (mk_exn ValueError "Invalid IPv6 URL"));
      reflexivity.
Defined.


Lemma find_gtm_in_context_witness :
  find_gtm ("<html><head><script>" ++ "window.dataLayer = [];"
              ++ "</script></head></html>") = true.
Proof.
  apply (find_gtm_in_context "<html><head><script>" "window.dataLayer = [];"
           "</script></head></html>").
  reflexivity.
Defined.

Lemma manual_urls_of_lines_witness :
  manual_urls (concat (String newline "")
                 ["example.com"; "https://b.org/a b"; "example.com"])
  = ["example.com"; "https://b.org/a b"; "example.com"].
Proof.
  apply manual_urls_of_lines.
  repeat constructor; discriminate.
Defined.

Lemma gtm_page_record_witness :
  check_gtm (H := Demo.libraries Demo.site_ok) "example.com" [] =
    (Ok {| url := "https://example.com";
           gtm_found := true;
           emails := ["info@example.com"];
           phones := ["(415) 555-0100"];
           contact_links := ["https://example.com/about"; "contact.html"];
           status := "Success";
           http_status := Some 200%Z |},
     [get_request "https://example.com" true]).
Proof.
  apply (@gtm_page_record (Demo.libraries Demo.site_ok) "example.com" []
           (Demo.response 200 "OK" Demo.gtm_body
              (get_request "https://example.com" true))
           Demo.page "example.com"); reflexivity.
Defined.

Lemma failure_after_fetch_witness :
  check_gtm (H := unparsable_libraries) "example.com" [] =
    (Ok (error_result "https://example.com" "Error: cannot parse"),
     [get_request "https://example.com" true])
  /\ find_gtm Demo.gtm_body = true.
Proof.
  split; [| reflexivity].
  apply (@failure_after_fetch unparsable_libraries "example.com" []
           (Demo.response 200 "OK" Demo.gtm_body
              (get_request "https://example.com" true))
           (mk_exn OtherException "cannot parse"));
    [reflexivity | reflexivity | now left | reflexivity].
Defined.
